(* Verification of browser-lab (browser-server): session lifecycle,
   session registry, URL derivation, WHIP resources and the screencast
   pump.  Shallow embedding of session/session.go, session/manager.go,
   main.go and proxy.go (WHIP part). *)

From stdpp Require Import base gmap strings list.
From Stdlib Require Import ZArith Lia Ascii String.

Local Open Scope Z_scope.
Local Set Warnings "-abstract-large-number".

(* ===================================================================== *)
(* 1. session/session.go and session/manager.go                          *)
(* ===================================================================== *)

Module Sess.

(* type Session struct (the fields the claims observe). *)
Record Session := mkSession {
  ID : string;
  wsURL : string;
  isClosed : bool
}.

(* Externally visible effects of the session code on the OS. *)
Inductive effect :=
  | Spawn (id : string)        (* cmd.Start() of the browser *)
  | Cancel (id : string)       (* cancel() of the CommandContext: signals the subprocess *)
  | Kill (id : string)         (* cmd.Process.Kill() *)
  | RemoveAll (path : string). (* os.RemoveAll(path) *)

Global Instance effect_eq_dec : EqDecision effect.
Proof. solve_decision. Defined.

(* "/tmp/chrome-profile-" + id *)
Definition profile_dir (id : string) : string :=
  String.append "/tmp/chrome-profile-" id.

(* func (s * Session) Stop(): guarded by s.mu and s.isClosed. *)
Definition Stop (s : Session) : Session * list effect :=
  if isClosed s then (s, [])
  else ({| ID := ID s; wsURL := wsURL s; isClosed := true |},
        [Cancel (ID s); RemoveAll (profile_dir (ID s))]).

(* The process state: a heap of Session objects addressed by pointer
   (a session's pointer is named by its unique uuid), the Manager's map
   `sessions` from id to pointer, and the trace of OS effects. *)
Record World := mkWorld {
  heap : gmap string Session;
  sessions : gmap string string;
  fx : list effect
}.

(* s.Stop() called through the pointer p. *)
Definition stop_ptr (p : string) (w : World) : World :=
  match heap w !! p with
  | None => w
  | Some s =>
      let '(s', e) := Stop s in
      {| heap := <[p := s']> (heap w); sessions := sessions w; fx := fx w ++ e |}
  end.

(* The auto-cleanup goroutine of NewSession: select between
   time.After(duration) (then s.Stop()) and ctx.Done() (nothing).  ctx is
   done exactly when cancel() has run, i.e. once the session is closed. *)
Definition timer_fire (p : string) (w : World) : World :=
  match heap w !! p with
  | Some s => if isClosed s then w else stop_ptr p w
  | None => w
  end.

(* func (m * Manager) GetSession(id string) ( *Session, bool) *)
Definition GetSession (id : string) (w : World) : option Session :=
  match sessions w !! id with
  | Some p => heap w !! p
  | None => None
  end.

(* func (m * Manager) DeleteSession(id string) *)
Definition DeleteSession (id : string) (w : World) : World :=
  match sessions w !! id with
  | Some p =>
      let w' := stop_ptr p w in
      {| heap := heap w'; sessions := delete id (sessions w'); fx := fx w' |}
  | None => w
  end.

(* HTTP outcomes of the handlers of main.go. *)
Inductive response :=
  | Status (code : Z)
  | ProxyTo (target : string).  (* proxy.ProxyCDP(w, r, sess.GetWSURL()) *)

(* func stopSessionHandler: DeleteSession then WriteHeader(200). *)
Definition stopSessionHandler (id : string) (w : World) : World * response :=
  (DeleteSession id w, Status 200).

(* func cdpProxyHandler *)
Definition cdpProxyHandler (id : string) (w : World) : response :=
  match GetSession id w with
  | None => Status 404
  | Some s => ProxyTo (wsURL s)
  end.

(* The session once Stop has run. *)
Definition closed_of (s : Session) : Session :=
  {| ID := ID s; wsURL := wsURL s; isClosed := true |}.

(* The session at pointer id is closed, and its registry entry is either
   still there or deleted. *)
Definition closed_at (id : string) (w : World) : Prop :=
  (exists s, heap w !! id = Some s /\ isClosed s = true) /\
  (sessions w !! id = Some id \/ sessions w !! id = None).

(* Things that can happen to a session after it is created. *)
Inductive sess_event :=
  | EvTimer (p : string)    (* the lifetime timer of pointer p fires *)
  | EvDelete (id : string). (* DELETE /sessions/{id} *)

Definition step (e : sess_event) (w : World) : World :=
  match e with
  | EvTimer p => timer_fire p w
  | EvDelete id => fst (stopSessionHandler id w)
  end.

Fixpoint run (es : list sess_event) (w : World) : World :=
  match es with
  | [] => w
  | e :: es' => run es' (step e w)
  end.

(* A world with one open, registered session "s1". *)
Definition s1 : Session := {| ID := "s1"; wsURL := "ws://127.0.0.1:4000/devtools/browser/x"; isClosed := false |}.
Definition w1 : World := {| heap := {[ "s1" := s1 ]}; sessions := {[ "s1" := "s1" ]}; fx := [] |}.

(* --- NewSession and parseDevToolsURL -------------------------------- *)

(* The regexp `DevTools listening on (ws://.+)\n?` of parseDevToolsURL,
   applied with FindStringSubmatch to one scanned line: the leftmost
   position where the marker, "ws://" and at least one more character
   occur; `.+` is greedy and the line holds no newline, so the submatch
   runs to the end of the line. *)
Definition marker : string := "DevTools listening on ".

Fixpoint find_url (line : string) : option string :=
  match line with
  | EmptyString => None
  | String _ rest =>
      if String.prefix (String.append marker "ws://") line
         && Nat.ltb (String.length marker + 5) (String.length line)
      then Some (String.substring (String.length marker)
                   (String.length line - String.length marker) line)
      else find_url rest
  end.

(* The stderr of the browser: its raw lines (each without its '\n'),
   with the millisecond (after launch) at which they arrive. *)

(* bufio.MaxScanTokenSize: the buffer of bufio.NewScanner never grows
   beyond 64 KiB.  A line whose bytes before the '\n' (or before EOF) fill
   that buffer makes Scan return false with ErrTooLong. *)
Definition MaxScanTokenSize : Z := 65536.

(* bufio.ScanLines hands out the line without a final '\r' (dropCR). *)
Definition drop_cr (l : string) : string :=
  match String.length l with
  | O => l
  | S n => if String.eqb (String.substring n 1 l) (String "013"%char EmptyString)
           then String.substring 0 n l else l
  end.

(* The scanner goroutine of parseDevToolsURL: the first line whose text
   matches sends its URL; a line too long for the scanner ends the loop
   (close(ch)) at its arrival; reaching EOF ends it too. *)
Inductive scan_result :=
  | SFound (t : Z) (url : string)
  | STooLong (t : Z)
  | SEnd.

Fixpoint scan (lines : list (Z * string)) : scan_result :=
  match lines with
  | [] => SEnd
  | (t, l) :: rest =>
      if MaxScanTokenSize <=? Z.of_nat (String.length l) then STooLong t
      else
        match find_url (drop_cr l) with
        | Some u => SFound t u
        | None => scan rest
        end
  end.

Inductive parse_result :=
  | PFound (url : string)
  | PClosed    (* "scanner closed without finding url" *)
  | PTimeout.  (* "timeout waiting for devtools url" *)

(* func parseDevToolsURL: the select between the channel (a url, or its
   close after an overlong line or when stderr reaches EOF at time eof)
   and time.After(5s).  A value arriving exactly at 5000 ms races with the
   timer; the model resolves that tie in favour of the timer. *)
Definition parseDevToolsURL (lines : list (Z * string)) (eof : option Z) : parse_result :=
  match scan lines with
  | SFound t u => if t <? 5000 then PFound u else PTimeout
  | STooLong t => if t <? 5000 then PClosed else PTimeout
  | SEnd =>
      match eof with
      | Some t => if t <? 5000 then PClosed else PTimeout
      | None => PTimeout
      end
  end.

Inductive session_error :=
  | ErrStart                    (* cmd.StderrPipe or cmd.Start failed *)
  | ErrParse (msg : string).    (* fmt.Errorf("failed to parse devtools url: %w", err) *)

Definition parse_msg (r : parse_result) : string :=
  match r with
  | PClosed => "scanner closed without finding url"
  | _ => "timeout waiting for devtools url"
  end.

(* func NewSession(duration): id is the fresh uuid, start_ok whether
   cmd.Start() succeeds, lines/eof the browser's stderr.  Returns the
   session or the error, and the effects performed. *)
Definition NewSession (id : string) (start_ok : bool) (lines : list (Z * string)) (eof : option Z)
  : (Session + session_error) * list effect :=
  if negb start_ok then (inr ErrStart, [Cancel id])
  else
    match parseDevToolsURL lines eof with
    | PFound u => (inl {| ID := id; wsURL := u; isClosed := false |}, [Spawn id])
    | r => (inr (ErrParse (String.append "failed to parse devtools url: " (parse_msg r))),
            [Spawn id; Cancel id; Kill id])
    end.

(* func (m * Manager) CreateSession(duration) *)
Definition CreateSession (id : string) (start_ok : bool) (lines : list (Z * string)) (eof : option Z)
  (w : World) : World * (Session + session_error) :=
  let '(r, e) := NewSession id start_ok lines eof in
  match r with
  | inl s => ({| heap := <[ID s := s]> (heap w); sessions := <[ID s := ID s]> (sessions w);
                fx := fx w ++ e |}, inl s)
  | inr err => ({| heap := heap w; sessions := sessions w; fx := fx w ++ e |}, inr err)
  end.

(* func NewManager() *Manager *)
Definition NewManager : World := {| heap := ∅; sessions := ∅; fx := [] |}.

(* func (m * Manager) ListSessions() []*Session: the values of the map,
   dereferenced, in the map's iteration order. *)
Definition ListSessions (w : World) : list Session :=
  omap (fun kv => heap w !! kv.2) (map_to_list (sessions w)).

(* The registry is well formed: every id is registered under its own
   pointer, that pointer is allocated, and every allocated session carries
   the id of its pointer. *)
Definition reg_wf (w : World) : Prop :=
  map_Forall (fun id p => p = id /\ is_Some (heap w !! p)) (sessions w) /\
  map_Forall (fun p s => ID s = p) (heap w).

Global Instance reg_wf_dec (w : World) : Decision (reg_wf w).
Proof. unfold reg_wf. apply _. Defined.

End Sess.

(* ===================================================================== *)
(* 2. main.go: URL derivation (resolveHost, resolveScheme, ...)          *)
(* ===================================================================== *)

Module Url.

(* The parts of *http.Request the URL derivation reads.  xfp is
   r.Header.Get("X-Forwarded-Proto"): "" when the header is absent. *)
Record Request := mkRequest {
  Host : string;
  xfp : string;
  TLS : bool     (* r.TLS != nil *)
}.

(* app_host is os.Getenv("APP_HOST"): "" when unset. *)
Definition resolveHost (app_host : string) (r : Request) : string :=
  if negb (String.eqb app_host "") then app_host else Host r.

Definition resolveScheme (app_host : string) (r : Request) : string :=
  if negb (String.eqb (xfp r) "") then xfp r
  else if TLS r then "https"
  else if negb (String.eqb app_host "") then "https"
  else "http".

Definition resolveWSScheme (app_host : string) (r : Request) : string :=
  if String.eqb (resolveScheme app_host r) "https" then "wss" else "ws".

(* fmt.Sprintf("%s://%s/sessions/%s/cdp", wsScheme, host, sess.ID) *)
Definition cdp_url (app_host : string) (r : Request) (id : string) : string :=
  String.append (resolveWSScheme app_host r)
    (String.append "://"
      (String.append (resolveHost app_host r)
        (String.append "/sessions/" (String.append id "/cdp")))).

(* A request behind a tunnel that reports plain http, with APP_HOST=h. *)
Definition req_xfp_http : Request := {| Host := "10.0.0.5:8080"; xfp := "http"; TLS := true |}.

(* fmt.Sprintf("%s://%s/sessions/%s/preview", scheme, host, sess.ID) *)
Definition preview_url (app_host : string) (r : Request) (id : string) : string :=
  String.append (resolveScheme app_host r)
    (String.append "://"
      (String.append (resolveHost app_host r)
        (String.append "/sessions/" (String.append id "/preview")))).

End Url.

(* ===================================================================== *)
(* 2b. main.go: the session handlers                                     *)
(* ===================================================================== *)

Module Api.

(* time.Minute in nanoseconds, and int64 wrap-around of time.Duration
   arithmetic. *)
Definition minute_ns : Z := 60000000000.

Definition wrap_int64 (z : Z) : Z := (z + 2 ^ 63) mod 2 ^ 64 - 2 ^ 63.

(* req.DurationMinutes after the two defaulting steps of
   createSessionHandler; decoded is the result of
   json.NewDecoder(r.Body).Decode(&req): None when it fails, otherwise
   the decoded duration_minutes (0 when the field is absent). *)
Definition duration_minutes (decoded : option Z) : Z :=
  let m := match decoded with None => 5 | Some m => m end in
  if m <=? 0 then 5 else m.

(* time.Duration(req.DurationMinutes) * time.Minute *)
Definition session_duration (decoded : option Z) : Z :=
  wrap_int64 (duration_minutes decoded * minute_ns).

(* type SessionResponse (the fields derived from the request and the
   session; CreatedAt and ExpiresAt are copied from the session). *)
Record SessionResponse := mkResp {
  respID : string;
  CDPURL : string;
  PreviewURL : string
}.

Definition session_response (app_host : string) (r : Url.Request) (s : Sess.Session)
  : SessionResponse :=
  {| respID := Sess.ID s;
     CDPURL := Url.cdp_url app_host r (Sess.ID s);
     PreviewURL := Url.preview_url app_host r (Sess.ID s) |}.

Inductive create_out :=
  | CreateFailed (err : Sess.session_error)        (* http.Error(..., 500) *)
  | Created (duration : Z) (resp : SessionResponse). (* JSON response *)

(* func createSessionHandler; the duration is the lifetime given to
   CreateSession (ExpiresAt - CreatedAt). *)
Definition createSessionHandler (app_host : string) (r : Url.Request) (decoded : option Z)
  (id : string) (start_ok : bool) (lines : list (Z * string)) (eof : option Z)
  (w : Sess.World) : Sess.World * create_out :=
  let d := session_duration decoded in
  let '(w', res) := Sess.CreateSession id start_ok lines eof w in
  match res with
  | inl s => (w', Created d (session_response app_host r s))
  | inr e => (w', CreateFailed e)
  end.

(* func listSessionsHandler *)
Definition listSessionsHandler (app_host : string) (r : Url.Request) (w : Sess.World)
  : list SessionResponse :=
  map (session_response app_host r) (Sess.ListSessions w).

End Api.

(* ===================================================================== *)
(* 3. proxy.go: WHIP resources                                           *)
(* ===================================================================== *)

Module Whip.

(* type WHIPResource struct; a peer connection is named by a handle. *)
Record WHIPResource := mkRes {
  rID : string;
  PeerConnection : option string;  (* None models a nil pointer *)
  SessionID : string
}.

(* webrtc.PeerConnectionState *)
Inductive pc_state :=
  | PCNew | PCConnecting | PCConnected | PCDisconnected | PCFailed | PCClosed.

Definition pc_state_eqb (a b : pc_state) : bool :=
  match a, b with
  | PCNew, PCNew | PCConnecting, PCConnecting | PCConnected, PCConnected
  | PCDisconnected, PCDisconnected | PCFailed, PCFailed | PCClosed, PCClosed => true
  | _, _ => false
  end.

(* The global whipResources map and the trace of PeerConnection.Close()
   calls, one entry per call, naming the connection. *)
Record WState := mkWState {
  whipResources : gmap string WHIPResource;
  closes : list string
}.

(* The OnConnectionStateChange callback registered by whipHandler for
   resource resourceID. *)
Definition on_state_change (resourceID : string) (state : pc_state) (w : WState) : WState :=
  if pc_state_eqb state PCFailed || pc_state_eqb state PCClosed
  then {| whipResources := delete resourceID (whipResources w); closes := closes w |}
  else w.

Inductive method := MPatch | MDelete | MOther.

(* func whipResourceHandler: the new state and the status code. *)
Definition whipResourceHandler (m : method) (resourceID : string) (w : WState) : WState * Z :=
  match whipResources w !! resourceID with
  | None => (w, 404)
  | Some res =>
      match m with
      | MPatch => (w, 204)
      | MDelete =>
          let cl := match PeerConnection res with
                    | Some pc => closes w ++ [pc]
                    | None => closes w
                    end in
          ({| whipResources := delete resourceID (whipResources w); closes := cl |}, 200)
      | MOther => (w, 405)
      end
  end.

(* Reading the SDP offer in whipHandler:
     offerSDP = make([]byte, r.ContentLength)
     _, err := r.Body.Read(offerSDP)
   The body is delivered as a sequence of reads (chunks); one Read copies
   at most len(offerSDP) bytes of the next chunk.  With no chunk left it
   returns 0, EOF, which the handler accepts.
   make([]byte, n) panics ("makeslice: len out of range") when n < 0 (a
   chunked body has ContentLength = -1) or n exceeds maxAlloc, the
   largest allocation of the runtime (1 << 48 on 64-bit Linux); net/http
   accepts any Content-Length up to 2^63 - 1.  Below that bound the
   allocation needs n bytes from the OS: mem is what the runtime can
   still obtain, and asking for more ends the process with "fatal error:
   runtime: out of memory". *)
Definition maxAlloc : Z := 2 ^ 48.

Inductive offer_read :=
  | ReadPanic                 (* makeslice: len out of range *)
  | ReadOOM                   (* fatal error: runtime: out of memory *)
  | ReadOffer (sdp : string). (* string(offerSDP) *)

Fixpoint zeros (n : nat) : string :=
  match n with
  | O => EmptyString
  | S n' => String Ascii.zero (zeros n')
  end.

Definition read_offer (mem content_length : Z) (chunks : list string) : offer_read :=
  if (content_length <? 0) || (maxAlloc <? content_length) then ReadPanic
  else if mem <? content_length then ReadOOM
  else
    let len := Z.to_nat content_length in
    match chunks with
    | [] => ReadOffer (zeros len)
    | c :: _ =>
        let n := Nat.min len (String.length c) in
        ReadOffer (String.append (String.substring 0 n c) (zeros (len - n)))
    end.

(* Reading until EOF: the complete body. *)
Fixpoint body_bytes (chunks : list string) : string :=
  match chunks with
  | [] => EmptyString
  | c :: rest => String.append c (body_bytes rest)
  end.

(* A registry holding one resource. *)
Definition res1 : WHIPResource := {| rID := "r1"; PeerConnection := Some "pc1"; SessionID := "s1" |}.
Definition ws1 : WState := {| whipResources := {[ "r1" := res1 ]}; closes := [] |}.

(* The parts of the POST /sessions/{id}/whip request whipHandler reads.
   wReadErr: Body.Read returns an error other than EOF. *)
Record WhipRequest := mkWhipReq {
  wMethod : string;
  wContentType : string;
  wContentLength : Z;
  wBody : list string;
  wReadErr : bool
}.

(* The outcomes of the pion calls: NewPeerConnection, SetRemoteDescription
   (as a function of the offer), CreateAnswer, SetLocalDescription, and
   the local description after ICE gathering (complete or timed out). *)
Record Pion := mkPion {
  pcOK : bool;
  remoteOK : string -> bool;
  answerOK : bool;
  localOK : bool;
  localSDP : string
}.

Inductive whip_out :=
  | WStatus (code : Z)                       (* http.Error *)
  | WCreated (location : string) (sdp : string) (* 201 with Location and the answer *)
  | WPanic                                   (* make([]byte, ContentLength) panics *)
  | WCrash.                                  (* the runtime runs out of memory *)

(* func whipHandler: sw is the session manager, mem the memory the
   runtime can still obtain (see read_offer), resourceID the fresh uuid
   and pc the handle of the new peer connection. *)
Definition whipHandler (sw : Sess.World) (mem : Z) (sessionID : string) (req : WhipRequest)
  (p : Pion) (resourceID pc : string) (w : WState) : WState * whip_out :=
  if negb (String.eqb (wMethod req) "POST") then (w, WStatus 405)
  else
    match Sess.GetSession sessionID sw with
    | None => (w, WStatus 404)
    | Some _ =>
        if negb (String.eqb (wContentType req) "application/sdp") then (w, WStatus 400)
        else
          match read_offer mem (wContentLength req) (wBody req) with
          | ReadPanic => (w, WPanic)
          | ReadOOM => (w, WCrash)
          | ReadOffer offer =>
              if wReadErr req then (w, WStatus 400)
              else if negb (pcOK p) then (w, WStatus 500)
              else if negb (remoteOK p offer) then (w, WStatus 400)
              else if negb (answerOK p) then (w, WStatus 500)
              else if negb (localOK p) then (w, WStatus 500)
              else
                ({| whipResources :=
                      <[resourceID := {| rID := resourceID; PeerConnection := Some pc;
                                         SessionID := sessionID |}]> (whipResources w);
                    closes := closes w |},
                 WCreated (String.append "/sessions/"
                             (String.append sessionID (String.append "/whip/" resourceID)))
                          (localSDP p))
          end
    end.

End Whip.

(* ===================================================================== *)
(* 3b. proxy.go: ProxyCDP                                                *)
(* ===================================================================== *)

Module Cdp.

(* A websocket message: (messageType, payload). *)
Definition ws_message : Type := (Z * string)%type.

(* One relay goroutine of ProxyCDP: src is what ReadMessage returns on
   the source connection (None for an error), write_ok k the outcome of
   the k-th WriteMessage on the destination.  Returns the messages
   written and whether the goroutine sent an error on errChan.  An
   exhausted source stands for a read that never returns. *)
Fixpoint relay (src : list (option ws_message)) (write_ok : nat -> bool) (k : nat)
  : list ws_message * bool :=
  match src with
  | [] => ([], false)
  | None :: _ => ([], true)
  | Some m :: rest =>
      if write_ok k then
        let '(out, e) := relay rest write_ok (S k) in (m :: out, e)
      else ([], true)
  end.

Inductive proxy_out :=
  | DialFailed                      (* http.Error(..., 502) *)
  | UpgradeFailed                   (* upgrader.Upgrade failed: logged *)
  | Relayed (to_client to_target : list ws_message) (ended : bool).

(* func ProxyCDP: the two relay directions, target to client and client
   to target; the handler returns once either reports an error. *)
Definition ProxyCDP (dial_ok upgrade_ok : bool)
  (from_target from_client : list (option ws_message)) (client_ok target_ok : nat -> bool)
  : proxy_out :=
  if negb dial_ok then DialFailed
  else if negb upgrade_ok then UpgradeFailed
  else
    let '(down, e1) := relay from_target client_ok 0 in
    let '(up, e2) := relay from_client target_ok 0 in
    Relayed down up (e1 || e2).

(* The messages a source delivers before its first read error. *)
Fixpoint reads_ok (src : list (option ws_message)) : list ws_message :=
  match src with
  | Some m :: rest => m :: reads_ok rest
  | _ => []
  end.

Definition is_read_err (x : option ws_message) : bool :=
  match x with None => true | Some _ => false end.

End Cdp.

(* ===================================================================== *)
(* 4. proxy.go: the screencast pump (streamScreencastToDataChannel)      *)
(* ===================================================================== *)

Module Pump.

(* --- encoding/base64 StdEncoding.DecodeString -------------------------- *)

Definition b64val (c : ascii) : option Z :=
  let n := Z.of_nat (nat_of_ascii c) in
  if (65 <=? n) && (n <=? 90) then Some (n - 65)
  else if (97 <=? n) && (n <=? 122) then Some (n - 71)
  else if (48 <=? n) && (n <=? 57) then Some (n + 4)
  else if n =? 43 then Some 62
  else if n =? 47 then Some 63
  else None.

Definition is_pad (c : ascii) : bool := Ascii.eqb c "="%char.

(* The three bytes of a quantum (StdEncoding is not Strict: the unused
   low bits of a padded quantum are ignored). *)
Definition byte1 (v1 v2 : Z) : Z := Z.land (Z.lor (Z.shiftl v1 2) (Z.shiftr v2 4)) 255.
Definition byte2 (v2 v3 : Z) : Z := Z.land (Z.lor (Z.shiftl v2 4) (Z.shiftr v3 2)) 255.
Definition byte3 (v3 v4 : Z) : Z := Z.land (Z.lor (Z.shiftl v3 6) v4) 255.

(* Quanta of four characters; padding only in the last quantum. *)
Fixpoint decode_quanta (cs : list ascii) : option (list Z) :=
  match cs with
  | [] => Some []
  | c1 :: c2 :: c3 :: c4 :: rest =>
      match b64val c1, b64val c2 with
      | Some v1, Some v2 =>
          if is_pad c3 && is_pad c4 then
            match rest with [] => Some [byte1 v1 v2] | _ => None end
          else
            match b64val c3 with
            | None => None
            | Some v3 =>
                if is_pad c4 then
                  match rest with [] => Some [byte1 v1 v2; byte2 v2 v3] | _ => None end
                else
                  match b64val c4 with
                  | None => None
                  | Some v4 =>
                      match decode_quanta rest with
                      | Some bs => Some (byte1 v1 v2 :: byte2 v2 v3 :: byte3 v3 v4 :: bs)
                      | None => None
                      end
                  end
            end
      | _, _ => None
      end
  | _ => None
  end.

(* DecodeString skips '\r' and '\n' anywhere in the input. *)
Definition b64_decode (s : string) : option (list Z) :=
  decode_quanta (filter (fun c => negb (Ascii.eqb c "010"%char || Ascii.eqb c "013"%char))
                        (list_ascii_of_string s)).

(* --- the debugger messages the read loop consumes -------------------- *)

(* One iteration's conn.ReadMessage() followed by json.Unmarshal into
   CDPMessage and, for frames, into WebRTCScreencastFrameParams
   (None when that second Unmarshal fails). *)
Inductive cdp_in :=
  | ReadErr                                       (* ReadMessage error *)
  | BadJSON                                       (* Unmarshal of the envelope fails *)
  | Msg (meth : string) (params : option (string * Z)). (* (data, sessionId) *)

(* The observable actions of the pump, in order. *)
Inductive pev :=
  | PRead                           (* a message consumed from the websocket *)
  | PReadFail                       (* ReadMessage failed: loop exits *)
  | PText (size : Z) (ok : bool)    (* dc.SendText of {"type":"frame-start","size":size} *)
  | PBin (chunk : list Z) (ok : bool) (* dc.Send(data[i:end]) *)
  | PAck (id : Z) (sid : Z).        (* conn.WriteJSON of Page.screencastFrameAck *)

Definition chunkSize : nat := 60000.

(* The chunk loop
     for i := 0; i < len(data); i += chunkSize { ...; dc.Send(data[i:end]) }
   dc_ok k is the outcome of the k-th send on the data channel; a failed
   send breaks out of this loop.  Returns the trace and the next send
   index. *)
Fixpoint send_chunks (fuel : nat) (dc_ok : nat -> bool) (k i : nat) (data : list Z)
  : list pev * nat :=
  match fuel with
  | O => ([], k)
  | S f =>
      if Nat.ltb i (List.length data) then
        let fin := Nat.min (i + chunkSize) (List.length data) in
        let c := firstn (fin - i) (skipn i data) in
        if dc_ok k then
          let '(tr, k') := send_chunks f dc_ok (S k) (i + chunkSize) data in
          (PBin c true :: tr, k')
        else ([PBin c false], S k)
      else ([], k)
  end.

Definition frame_method : string := "Page.screencastFrame".

(* The main read loop of streamScreencastToDataChannel, from send index
   k and ack counter idCounter.  An exhausted input list stands for a
   read that never returns. *)
Fixpoint pump (dc_ok : nat -> bool) (k : nat) (idCounter : Z) (msgs : list cdp_in) : list pev :=
  match msgs with
  | [] => []
  | ReadErr :: _ => [PReadFail]
  | BadJSON :: rest => PRead :: pump dc_ok k idCounter rest
  | Msg m params :: rest =>
      PRead ::
      if String.eqb m frame_method then
        match params with
        | None => pump dc_ok k idCounter rest
        | Some (d64, sid) =>
            match b64_decode d64 with
            | None => pump dc_ok k idCounter rest
            | Some data =>
                if dc_ok k then
                  let '(tr, k') := send_chunks (S (List.length data)) dc_ok (S k) 0 data in
                  PText (Z.of_nat (List.length data)) true ::
                  tr ++ PAck (idCounter + 1) sid :: pump dc_ok k' (idCounter + 1) rest
                else [PText (Z.of_nat (List.length data)) false]
            end
        end
      else pump dc_ok k idCounter rest
  end.

(* The chunk partition computed by the loop when every send succeeds. *)
Fixpoint chunk_list (fuel : nat) (i : nat) (data : list Z) : list (list Z) :=
  match fuel with
  | O => []
  | S f =>
      if Nat.ltb i (List.length data) then
        firstn (Nat.min (i + chunkSize) (List.length data) - i) (skipn i data)
          :: chunk_list f (i + chunkSize) data
      else []
  end.

Definition chunks (data : list Z) : list (list Z) := chunk_list (S (List.length data)) 0 data.

(* The data-channel sends of a frame: everything but reads and acks. *)
Definition is_send (e : pev) : bool :=
  match e with
  | PText _ _ | PBin _ _ => true
  | _ => false
  end.

(* The ack ids sent, in order. *)
Definition ack_ids (tr : list pev) : list Z :=
  omap (fun e => match e with PAck id _ => Some id | _ => None end) tr.

(* The payloads of the frames the loop forwards: screencast frames whose
   params unmarshal and whose data decodes, up to the first read error. *)
Fixpoint decoded_frames (msgs : list cdp_in) : list (list Z) :=
  match msgs with
  | [] => []
  | ReadErr :: _ => []
  | BadJSON :: rest => decoded_frames rest
  | Msg m params :: rest =>
      if String.eqb m frame_method then
        match params with
        | Some (d64, _) =>
            match b64_decode d64 with
            | Some data => data :: decoded_frames rest
            | None => decoded_frames rest
            end
        | None => decoded_frames rest
        end
      else decoded_frames rest
  end.

(* The data-channel messages of one forwarded frame when every send
   succeeds: frame-start, then the chunks. *)
Definition frame_sends (data : list Z) : list pev :=
  PText (Z.of_nat (List.length data)) true :: map (fun c => PBin c true) (chunks data).

(* The elements of the /json target list the code reads. *)
Record Target := mkTarget {
  ttype : string;                 (* json:"type" *)
  webSocketDebuggerUrl : string   (* json:"webSocketDebuggerUrl" *)
}.

Definition is_page_target (t : Target) : bool :=
  String.eqb (ttype t) "page" && negb (String.eqb (webSocketDebuggerUrl t) "").

(* The loop selecting pageWSURL ("" when no page target is found). *)
Fixpoint select_page (ts : list Target) : string :=
  match ts with
  | [] => EmptyString
  | t :: rest => if is_page_target t then webSocketDebuggerUrl t else select_page rest
  end.

(* What streamScreencastToDataChannel does before its read loop.
   targets is the outcome of GET http://127.0.0.1:<port>/json: None when
   the request fails, Some None when the body does not decode as a list
   of targets.  dial_ok is the outcome of websocket.DefaultDialer.Dial on
   pageWSURL, start_ok that of the WriteJSON of Page.startScreencast (the
   errors of the three writes before it are ignored).  Returns the URL
   dialled, the ids of the commands written on the page connection, and
   whether the function goes on to the automation goroutine and the read
   loop or returns. *)
Inductive setup_out :=
  | SetupAbort    (* log.Println(...); return *)
  | SetupStream.  (* the automation goroutine and the read loop run *)

Definition stream_setup (targets : option (option (list Target))) (dial_ok start_ok : bool)
  : option string * list Z * setup_out :=
  match targets with
  | None => (None, [], SetupAbort)
  | Some None => (None, [], SetupAbort)
  | Some (Some ts) =>
      let pageWSURL := select_page ts in
      if String.eqb pageWSURL "" then (None, [], SetupAbort)
      else if negb dial_ok then (Some pageWSURL, [], SetupAbort)
      else (Some pageWSURL, [1; 10; 3; 2], if start_ok then SetupStream else SetupAbort)
  end.

(* The automated-scrolling goroutine: one tick per fuel step, each
   sending window.scrollBy(0, y); write_ok k is the outcome of the k-th
   conn.WriteJSON, and a failed write ends the goroutine.  Returns the y
   of every command written (the failing one included). *)
Fixpoint automation (fuel : nat) (write_ok : nat -> bool) (k : nat) (scrollDown : bool) : list Z :=
  match fuel with
  | O => []
  | S f =>
      let y := if scrollDown then 100 else -100 in
      y :: (if write_ok k then automation f write_ok (S k) (negb scrollDown) else [])
  end.

Definition sumZ (l : list Z) : Z := fold_right Z.add 0 l.

End Pump.

(* ===================================================================== *)
(* 5. Session lifecycle and registry                                     *)
(* ===================================================================== *)

Module SessProofs.
Import Sess.

Lemma stop_open (s : Session) :
  isClosed s = false ->
  Stop s = (closed_of s, [Cancel (ID s); RemoveAll (profile_dir (ID s))]).
Proof. intros H. unfold Stop. by rewrite H. Qed.

Lemma stop_closed (s : Session) : isClosed s = true -> Stop s = (s, []).
Proof. intros H. unfold Stop. by rewrite H. Qed.

Lemma timer_fire_open (w : World) (p : string) (s : Session) :
  heap w !! p = Some s -> isClosed s = false ->
  timer_fire p w =
    {| heap := <[p := closed_of s]> (heap w); sessions := sessions w;
       fx := fx w ++ [Cancel (ID s); RemoveAll (profile_dir (ID s))] |}.
Proof.
  intros Hp Hc. unfold timer_fire, stop_ptr. rewrite Hp, Hc, stop_open by done. done.
Qed.

(* Any event on a session that is already closed leaves the heap and the
   effect trace alone. *)
Lemma step_closed (id : string) (e : sess_event) (w : World) :
  (e = EvTimer id \/ e = EvDelete id) -> closed_at id w ->
  closed_at id (step e w) /\ heap (step e w) = heap w /\ fx (step e w) = fx w.
Proof.
  intros He [[s [Hs Hc]] Hreg].
  destruct He as [-> | ->]; simpl.
  - unfold timer_fire. rewrite Hs, Hc. split; [split; eauto | done].
  - unfold DeleteSession. destruct Hreg as [Hreg | Hreg]; rewrite Hreg.
    + unfold stop_ptr. rewrite Hs, stop_closed by done. simpl.
      rewrite insert_id by done. rewrite app_nil_r.
      split; [split; [eauto | right; apply lookup_delete_eq] | done].
    + split; [split; eauto | done].
Qed.

Lemma run_closed (id : string) (es : list sess_event) (w : World) :
  Forall (fun e => e = EvTimer id \/ e = EvDelete id) es -> closed_at id w ->
  closed_at id (run es w) /\ heap (run es w) = heap w /\ fx (run es w) = fx w.
Proof.
  revert w. induction es as [|e es IH]; intros w Hall Hcl; simpl; [done |].
  inversion Hall as [|? ? He Hes]; subst.
  destruct (step_closed id e w He Hcl) as (Hcl' & Hh & Hf).
  destruct (IH (step e w) Hes Hcl') as (? & Hh' & Hf').
  split; [done | split; congruence].
Qed.

Lemma delete_open (w : World) (id : string) (s : Session) :
  sessions w !! id = Some id -> heap w !! id = Some s -> isClosed s = false ->
  DeleteSession id w =
    {| heap := <[id := closed_of s]> (heap w); sessions := delete id (sessions w);
       fx := fx w ++ [Cancel (ID s); RemoveAll (profile_dir (ID s))] |}.
Proof.
  intros Hr Hp Hc. unfold DeleteSession. rewrite Hr.
  unfold stop_ptr. rewrite Hp, stop_open by done. done.
Qed.


(** C1 (code_bug): when the lifetime timer of a registered, open
    session fires, Stop runs (the session is closed, its subprocess is
    cancelled and its data directory removed) but the Manager keeps the
    entry: GetSession still returns the closed session and
    GET /sessions/{id}/cdp is proxied to its debugger URL instead of
    answering 404.  Only an explicit DeleteSession removes the entry,
    after which GetSession reports absence and the handler answers 404. *)
Theorem C1_timer_keeps_registration (w : World) (id : string) (s : Session) :
  sessions w !! id = Some id -> heap w !! id = Some s -> isClosed s = false ->
  heap (timer_fire id w) !! id = Some (closed_of s) /\
  fx (timer_fire id w) = fx w ++ [Cancel (ID s); RemoveAll (profile_dir (ID s))] /\
  sessions (timer_fire id w) = sessions w /\
  GetSession id (timer_fire id w) = Some (closed_of s) /\
  cdpProxyHandler id (timer_fire id w) = ProxyTo (wsURL s) /\
  cdpProxyHandler id (timer_fire id w) <> Status 404 /\
  GetSession id (DeleteSession id (timer_fire id w)) = None /\
  cdpProxyHandler id (DeleteSession id (timer_fire id w)) = Status 404.
Proof.
  intros Hr Hp Hc.
  pose proof (timer_fire_open w id s Hp Hc) as Ht.
  assert (Hg : GetSession id (timer_fire id w) = Some (closed_of s)).
  { rewrite Ht. unfold GetSession. simpl. rewrite Hr. apply lookup_insert_eq. }
  assert (Hd : GetSession id (DeleteSession id (timer_fire id w)) = None).
  { unfold DeleteSession, GetSession. destruct (sessions (timer_fire id w) !! id) eqn:E; simpl;
      [by rewrite lookup_delete_eq |].
    rewrite Ht in E. simpl in E. congruence. }
  split; [rewrite Ht; simpl; apply lookup_insert_eq |].
  split; [by rewrite Ht |]. split; [by rewrite Ht |].
  split; [done |]. split; [unfold cdpProxyHandler; by rewrite Hg |].
  split; [unfold cdpProxyHandler; by rewrite Hg |].
  split; [done | unfold cdpProxyHandler; by rewrite Hd].
Qed.

Lemma C1_timer_keeps_registration_witness :
  heap (timer_fire "s1" w1) !! "s1" = Some (closed_of s1) /\
  fx (timer_fire "s1" w1) = fx w1 ++ [Cancel (ID s1); RemoveAll (profile_dir (ID s1))] /\
  sessions (timer_fire "s1" w1) = sessions w1 /\
  GetSession "s1" (timer_fire "s1" w1) = Some (closed_of s1) /\
  cdpProxyHandler "s1" (timer_fire "s1" w1) = ProxyTo (wsURL s1) /\
  cdpProxyHandler "s1" (timer_fire "s1" w1) <> Status 404 /\
  GetSession "s1" (DeleteSession "s1" (timer_fire "s1" w1)) = None /\
  cdpProxyHandler "s1" (DeleteSession "s1" (timer_fire "s1" w1)) = Status 404.
Proof. apply (C1_timer_keeps_registration w1 "s1" s1); reflexivity. Defined.

(** C4 (counterexample): deleting session "s1" twice answers 200 both
    times; the second DELETE does not answer 404. *)
Lemma C4_counterexample :
  snd (stopSessionHandler "s1" w1) = Status 200 /\
  snd (stopSessionHandler "s1" (fst (stopSessionHandler "s1" w1))) = Status 200 /\
  snd (stopSessionHandler "s1" (fst (stopSessionHandler "s1" w1))) <> Status 404.
Proof. split; [reflexivity | split; [reflexivity | discriminate]]. Qed.

(** C4 (amended): DELETE /sessions/{id} always answers 200.  The first
    DELETE of a registered session calls Stop on it, leaving it closed
    (when it was still open this cancels the subprocess and removes its
    data directory; a session its timer already stopped gets no second
    cleanup), and removes it from the registry; a second DELETE of the
    same id finds nothing, leaves the whole state (registry, sessions,
    effects) unchanged and answers 200 again. *)
Theorem C4_delete_idempotent_200 (w : World) (id : string) :
  let w2 := fst (stopSessionHandler id w) in
  snd (stopSessionHandler id w) = Status 200 /\
  GetSession id w2 = None /\
  stopSessionHandler id w2 = (w2, Status 200) /\
  (forall p s, sessions w !! id = Some p -> heap w !! p = Some s ->
     heap w2 !! p = Some (closed_of s) /\
     fx w2 = fx w ++ (if isClosed s then [] else [Cancel (ID s); RemoveAll (profile_dir (ID s))])).
Proof.
  cbn zeta.
  assert (Hn : sessions (DeleteSession id w) !! id = None).
  { unfold DeleteSession. destruct (sessions w !! id) eqn:E; simpl; [apply lookup_delete_eq | done]. }
  split; [done |]. split; [| split].
  - simpl. unfold GetSession. by rewrite Hn.
  - simpl. unfold stopSessionHandler, DeleteSession at 1. by rewrite Hn.
  - intros p s Hr Hp. simpl. unfold DeleteSession. rewrite Hr. unfold stop_ptr. rewrite Hp.
    destruct (isClosed s) eqn:Hc.
    + rewrite stop_closed by done. simpl. rewrite lookup_insert_eq. split; [| done].
      destruct s as [i u c]. simpl in Hc. subst c. done.
    + rewrite stop_open by done. simpl. by rewrite lookup_insert_eq.
Qed.

(** C5 (code_bug, evaluated): when the debugger URL is announced only
    after the 5 second timeout, CreateSession spawns the browser, cancels
    and kills it and returns the startup-timeout error without registering
    anything, but never removes the private data directory: no RemoveAll
    of "/tmp/chrome-profile-<id>" is among its effects. *)
Theorem C5_timeout_keeps_data_dir (id : string) (lines : list (Z * string)) (eof : option Z)
  (w : World) :
  parseDevToolsURL lines eof = PTimeout ->
  CreateSession id true lines eof w =
    ({| heap := heap w; sessions := sessions w; fx := fx w ++ [Spawn id; Cancel id; Kill id] |},
     inr (ErrParse "failed to parse devtools url: timeout waiting for devtools url")) /\
  RemoveAll (profile_dir id) ∉ [Spawn id; Cancel id; Kill id].
Proof.
  intros Ht. split.
  - unfold CreateSession, NewSession. simpl. rewrite Ht. done.
  - rewrite !elem_of_cons. intros [H|[H|[H|H]]]; [discriminate.. | by apply not_elem_of_nil in H].
Qed.

Lemma C5_timeout_keeps_data_dir_witness :
  parseDevToolsURL [(5100, "DevTools listening on ws://127.0.0.1:9222/devtools/browser/b")] None
    = PTimeout /\
  CreateSession "a" true [(5100, "DevTools listening on ws://127.0.0.1:9222/devtools/browser/b")] None w1 =
    ({| heap := heap w1; sessions := sessions w1; fx := fx w1 ++ [Spawn "a"; Cancel "a"; Kill "a"] |},
     inr (ErrParse "failed to parse devtools url: timeout waiting for devtools url")) /\
  RemoveAll (profile_dir "a") ∉ [Spawn "a"; Cancel "a"; Kill "a"].
Proof.
  split; [reflexivity |].
  apply (C5_timeout_keeps_data_dir "a" _ None w1). reflexivity.
Defined.

(** C8: Stop is idempotent.  For an open, registered session id, any
    non-empty sequence of lifetime-timer firings and explicit deletes, in
    any order, leaves the session closed and adds exactly one cancel
    (the subprocess signal) and exactly one RemoveAll of its data
    directory to the effects. *)
Theorem C8_stop_idempotent (w : World) (id : string) (s : Session) (es : list sess_event) :
  heap w !! id = Some s -> ID s = id -> isClosed s = false -> sessions w !! id = Some id ->
  es <> [] -> Forall (fun e => e = EvTimer id \/ e = EvDelete id) es ->
  (exists s', heap (run es w) !! id = Some s' /\ isClosed s' = true) /\
  fx (run es w) = fx w ++ [Cancel id; RemoveAll (profile_dir id)].
Proof.
  intros Hp Hid Hc Hr Hne Hall.
  destruct es as [|e es]; [done |].
  inversion Hall as [|? ? He Hes]; subst.
  assert (H1 : closed_at (ID s) (step e w) /\
               heap (step e w) !! ID s = Some (closed_of s) /\
               fx (step e w) = fx w ++ [Cancel (ID s); RemoveAll (profile_dir (ID s))]).
  { destruct He as [-> | ->]; simpl.
    - rewrite (timer_fire_open w (ID s) s Hp Hc). simpl.
      split; [split; [exists (closed_of s); simpl; rewrite lookup_insert_eq; done | by left] |].
      by rewrite lookup_insert_eq.
    - rewrite (delete_open w (ID s) s Hr Hp Hc). simpl.
      split; [split; [exists (closed_of s); simpl; rewrite lookup_insert_eq; done
                     | right; apply lookup_delete_eq] |].
      by rewrite lookup_insert_eq. }
  destruct H1 as (Hcl & Hh & Hf).
  destruct (run_closed (ID s) es (step e w) Hes Hcl) as (_ & Hh' & Hf').
  simpl. split.
  - exists (closed_of s). by rewrite Hh', Hh.
  - by rewrite Hf', Hf.
Qed.

Lemma C8_stop_idempotent_witness :
  (exists s', heap (run [EvTimer "s1"; EvDelete "s1"; EvTimer "s1"] w1) !! "s1" = Some s' /\
              isClosed s' = true) /\
  fx (run [EvTimer "s1"; EvDelete "s1"; EvTimer "s1"] w1) = fx w1 ++ [Cancel "s1"; RemoveAll (profile_dir "s1")].
Proof.
  apply (C8_stop_idempotent w1 "s1" s1); try reflexivity.
  - discriminate.
  - repeat (apply List.Forall_cons; [cbv beta; (by left) || (by right) |]). apply List.Forall_nil.
Defined.

End SessProofs.

(* ===================================================================== *)
(* 6. URL derivation                                                     *)
(* ===================================================================== *)

Module UrlProofs.
Import Url.

(** C6 (counterexample): with APP_HOST="h", a request arriving over TLS
    and carrying X-Forwarded-Proto: http gets scheme http, and its
    cdp_url starts with ws:// instead of wss://. *)
Lemma C6_counterexample :
  resolveScheme "h" req_xfp_http = "http" /\
  cdp_url "h" req_xfp_http "id1" = "ws://h/sessions/id1/cdp".
Proof. split; reflexivity. Qed.

(** C6 (amended): a non-empty X-Forwarded-Proto header is used verbatim
    as the scheme; only when it is absent is the scheme https if the
    request arrived over TLS or APP_HOST is set, and http otherwise (so
    with APP_HOST unset, no header and no TLS it is http).  The websocket
    scheme is wss exactly when the scheme is "https".  With APP_HOST=h
    (non-empty) the cdp_url has host h, and its scheme is wss whenever
    the header is absent or says "https" (ws otherwise). *)
Theorem C6_scheme_derivation (app_host : string) (r : Request) (id : string) :
  resolveScheme app_host r =
    (if String.eqb (xfp r) "" then (if TLS r || negb (String.eqb app_host "") then "https" else "http")
     else xfp r) /\
  (app_host = "" -> xfp r = "" -> TLS r = false -> resolveScheme app_host r = "http") /\
  (resolveWSScheme app_host r = "wss" <-> resolveScheme app_host r = "https") /\
  (app_host <> "" ->
     resolveHost app_host r = app_host /\
     cdp_url app_host r id =
       String.append (if String.eqb (xfp r) "" || String.eqb (xfp r) "https" then "wss" else "ws")
         (String.append "://" (String.append app_host
           (String.append "/sessions/" (String.append id "/cdp"))))).
Proof.
  assert (Hs : resolveScheme app_host r =
    (if String.eqb (xfp r) "" then (if TLS r || negb (String.eqb app_host "") then "https" else "http")
     else xfp r)).
  { unfold resolveScheme. destruct (String.eqb (xfp r) ""); simpl; [|done].
    destruct (TLS r); done. }
  assert (Hw : resolveWSScheme app_host r = "wss" <-> resolveScheme app_host r = "https").
  { unfold resolveWSScheme. destruct (String.eqb (resolveScheme app_host r) "https") eqn:E.
    - apply String.eqb_eq in E. done.
    - apply String.eqb_neq in E. split; [discriminate | done]. }
  split; [done |]. split.
  { intros -> Hx Ht. rewrite Hs, Hx, Ht. done. }
  split; [done |].
  intros Happ.
  assert (Ha : String.eqb app_host "" = false) by (apply String.eqb_neq; done).
  assert (Hh : resolveHost app_host r = app_host) by (unfold resolveHost; by rewrite Ha).
  split; [done |].
  unfold cdp_url. rewrite Hh. f_equal.
  unfold resolveWSScheme. rewrite Hs, Ha. simpl. rewrite orb_true_r.
  destruct (String.eqb (xfp r) "") eqn:E1; simpl; [done |].
  destruct (String.eqb (xfp r) "https"); done.
Qed.

End UrlProofs.

(* ===================================================================== *)
(* 7. WHIP resources                                                     *)
(* ===================================================================== *)

Module WhipProofs.
Import Whip.

(** C7 (code_bug, evaluated): when a resource's peer connection enters
    the failed state, the state-change callback removes the resource from
    the registry but never calls PeerConnection.Close(): the close trace
    is unchanged.  (The closed state likewise only removes the entry.)
    For the registry ws1 holding resource "r1" with connection "pc1", a
    failure empties the registry and "pc1" is never closed. *)
Theorem C7_failed_removed_not_closed (resourceID : string) (w : WState) :
  whipResources (on_state_change resourceID PCFailed w) !! resourceID = None /\
  closes (on_state_change resourceID PCFailed w) = closes w /\
  whipResources (on_state_change resourceID PCClosed w) !! resourceID = None /\
  closes (on_state_change resourceID PCClosed w) = closes w /\
  whipResources (on_state_change "r1" PCFailed ws1) = ∅ /\
  closes (on_state_change "r1" PCFailed ws1) = [].
Proof.
  unfold on_state_change. simpl.
  split; [apply lookup_delete_eq |]. split; [done |].
  split; [apply lookup_delete_eq |]. split; [done |].
  split; [apply delete_singleton_eq | done].
Qed.

(** C10 (code_bug, evaluated): with Content-Length 6 and a body that
    arrives in two reads "abc" and "def", the single Body.Read fills only
    the first three bytes: whenever the 6-byte buffer can be allocated,
    the SDP offer is "abc" followed by three NUL bytes, not the complete
    body "abcdef".  A chunked body (ContentLength = -1) makes the buffer
    allocation panic. *)
Theorem C10_single_read_truncates :
  (forall mem, 6 <= mem ->
     read_offer mem 6 ["abc"; "def"] = ReadOffer (String.append "abc" (zeros 3)) /\
     read_offer mem 6 ["abc"; "def"] <> ReadOffer (body_bytes ["abc"; "def"])) /\
  body_bytes ["abc"; "def"] = "abcdef" /\
  (forall mem, read_offer mem (-1) ["abc"; "def"] = ReadPanic).
Proof.
  split; [| split; [reflexivity | reflexivity]].
  intros mem Hm. unfold read_offer. simpl.
  rewrite (proj2 (Z.ltb_ge mem 6) Hm).
  split; [reflexivity | vm_compute; discriminate].
Qed.

End WhipProofs.

(* ===================================================================== *)
(* 8. The screencast pump                                                *)
(* ===================================================================== *)

Module PumpProofs.
Import Pump.
Local Open Scope nat_scope.

Lemma chunkSize_pos : 0 < chunkSize.
Proof. apply Nat.ltb_lt. vm_compute. reflexivity. Qed.

Lemma chunkSize_value : chunkSize = 60000.
Proof. apply Nat.eqb_eq. vm_compute. reflexivity. Qed.

(* Keep the 60000 literal folded in symbolic proofs. *)
Local Opaque chunkSize.

(* When every send succeeds, the chunk loop sends exactly chunk_list. *)
Lemma send_chunks_ok (fuel : nat) (dc_ok : nat -> bool) (k i : nat) (data : list Z) :
  (forall j, k <= j < k + List.length (chunk_list fuel i data) -> dc_ok j = true) ->
  send_chunks fuel dc_ok k i data =
    (map (fun c => PBin c true) (chunk_list fuel i data), k + List.length (chunk_list fuel i data)).
Proof.
  revert k i. induction fuel as [|f IH]; intros k i Hok; simpl in *; [f_equal; lia |].
  destruct (Nat.ltb i (List.length data)); simpl in *; [| f_equal; lia].
  rewrite (Hok k) by lia.
  rewrite (IH (S k) (i + chunkSize)) by (intros j Hj; apply Hok; lia).
  simpl. f_equal. lia.
Qed.

(* One chunk followed by the rest of the data is the data from i on. *)
Lemma chunk_step (i : nat) (data : list Z) :
  firstn (Nat.min (i + chunkSize) (List.length data) - i) (skipn i data) ++ skipn (i + chunkSize) data
  = skipn i data.
Proof.
  destruct (Nat.le_gt_cases (i + chunkSize) (List.length data)) as [Hle | Hgt].
  - replace (Nat.min (i + chunkSize) (List.length data) - i) with chunkSize by lia.
    replace (skipn (i + chunkSize) data) with (skipn chunkSize (skipn i data))
      by (rewrite skipn_skipn; f_equal; lia).
    apply firstn_skipn.
  - rewrite firstn_all2 by (rewrite length_skipn; lia).
    rewrite (skipn_all2 (n := i + chunkSize) data) by lia. apply app_nil_r.
Qed.

Lemma chunk_list_concat (fuel i : nat) (data : list Z) :
  List.length data <= i + fuel * chunkSize ->
  List.concat (chunk_list fuel i data) = skipn i data.
Proof.
  revert i. induction fuel as [|f IH]; intros i Hlen; simpl.
  - rewrite skipn_all2 by lia. done.
  - destruct (Nat.ltb_spec i (List.length data)) as [Hlt | Hge]; simpl.
    + rewrite IH by lia. apply chunk_step.
    + rewrite skipn_all2 by lia. done.
Qed.

Lemma chunk_list_sizes (fuel i : nat) (data : list Z) :
  Forall (fun c => 0 < List.length c <= chunkSize) (chunk_list fuel i data).
Proof.
  pose proof chunkSize_pos.
  revert i. induction fuel as [|f IH]; intros i; simpl; [constructor |].
  destruct (Nat.ltb_spec i (List.length data)) as [Hlt | Hge]; [| constructor].
  constructor; [| apply IH].
  rewrite length_firstn, length_skipn. lia.
Qed.

Lemma chunk_list_nonempty (fuel i : nat) (data : list Z) :
  chunk_list fuel i data <> [] -> i < List.length data.
Proof.
  destruct fuel; simpl; [done |].
  destruct (Nat.ltb_spec i (List.length data)); done.
Qed.

Lemma chunk_list_full (fuel i : nat) (data : list Z) :
  Forall (fun c => List.length c = chunkSize) (removelast (chunk_list fuel i data)).
Proof.
  revert i. induction fuel as [|f IH]; intros i; simpl; [constructor |].
  destruct (Nat.ltb_spec i (List.length data)) as [Hlt | Hge]; [| constructor].
  destruct (chunk_list f (i + chunkSize) data) as [|c' rest'] eqn:E; [constructor |].
  assert (Hin : i + chunkSize < List.length data)
    by (apply (chunk_list_nonempty f); rewrite E; discriminate).
  change (removelast (firstn (Nat.min (i + chunkSize) (List.length data) - i) (skipn i data)
            :: c' :: rest'))
    with (firstn (Nat.min (i + chunkSize) (List.length data) - i) (skipn i data)
            :: removelast (c' :: rest')).
  constructor.
  - rewrite length_firstn, length_skipn. lia.
  - rewrite <- E. apply IH.
Qed.

Lemma chunks_concat (data : list Z) : List.concat (chunks data) = data.
Proof.
  unfold chunks. rewrite chunk_list_concat; [done |].
  pose proof chunkSize_pos. nia.
Qed.

(* A frame whose data decodes and whose sends all succeed. *)
Lemma pump_frame_ok (dc_ok : nat -> bool) (k : nat) (idc : Z) (d64 : string) (sid : Z)
  (rest : list cdp_in) (data : list Z) :
  b64_decode d64 = Some data ->
  (forall j, k <= j <= k + List.length (chunks data) -> dc_ok j = true) ->
  pump dc_ok k idc (Msg frame_method (Some (d64, sid)) :: rest) =
    PRead :: PText (Z.of_nat (List.length data)) true ::
    map (fun c => PBin c true) (chunks data) ++
    PAck (idc + 1)%Z sid :: pump dc_ok (S k + List.length (chunks data)) (idc + 1)%Z rest.
Proof.
  intros Hd Hok. cbn -[send_chunks b64_decode]. rewrite Hd.
  rewrite (Hok k) by lia.
  unfold chunks in *.
  rewrite (send_chunks_ok _ dc_ok (S k) 0 data) by (intros j Hj; apply Hok; lia).
  done.
Qed.


(** C2: for a screencast frame whose data decodes and whose data-channel
    sends succeed, the pump consumes it, sends one frame-start text
    message whose size is the decoded byte length, then the payload as
    in-order binary chunks (the chunks concatenate to the payload, their
    lengths sum to the size, every chunk but the last has exactly
    chunkSize = 60000 bytes and each has 1 to 60000 bytes), then the ack.
    A 60001-byte payload gives chunks of 60000 and 1 bytes; an empty
    payload gives no chunk. *)
Theorem C2_frame_chunking (dc_ok : nat -> bool) (k : nat) (idc : Z) (d64 : string) (sid : Z)
  (rest : list cdp_in) (data : list Z) :
  b64_decode d64 = Some data ->
  (forall j, k <= j <= k + List.length (chunks data) -> dc_ok j = true) ->
  pump dc_ok k idc (Msg frame_method (Some (d64, sid)) :: rest) =
    PRead :: PText (Z.of_nat (List.length data)) true ::
    map (fun c => PBin c true) (chunks data) ++
    PAck (idc + 1)%Z sid :: pump dc_ok (S k + List.length (chunks data)) (idc + 1)%Z rest /\
  List.concat (chunks data) = data /\
  list_sum (map (@List.length Z) (chunks data)) = List.length data /\
  Forall (fun c => List.length c = chunkSize) (removelast (chunks data)) /\
  Forall (fun c => 0 < List.length c <= chunkSize) (chunks data) /\
  chunkSize = 60000 /\
  map (@List.length Z) (chunks (repeat 0%Z 60001)) = [60000; 1] /\
  chunks [] = [].
Proof.
  intros Hd Hok.
  split; [apply pump_frame_ok; done |].
  split; [apply chunks_concat |].
  split; [rewrite <- length_concat, chunks_concat; done |].
  split; [apply chunk_list_full |].
  split; [apply chunk_list_sizes |].
  split; [apply chunkSize_value |].
  split; [match goal with |- ?P => apply (bool_decide_eq_true_1 P) end; vm_compute; reflexivity | reflexivity].
Qed.

Lemma C2_frame_chunking_witness :
  b64_decode "AAAA" = Some [0; 0; 0]%Z /\
  (pump (fun _ => true) 0 100 [Msg frame_method (Some ("AAAA", 7%Z))] =
    PRead :: PText (Z.of_nat (List.length [0; 0; 0]%Z)) true ::
    map (fun c => PBin c true) (chunks [0; 0; 0]%Z) ++
    PAck (100 + 1)%Z 7%Z :: pump (fun _ => true) (S 0 + List.length (chunks [0; 0; 0]%Z)) (100 + 1)%Z [] /\
  List.concat (chunks [0; 0; 0]%Z) = [0; 0; 0]%Z /\
  list_sum (map (@List.length Z) (chunks [0; 0; 0]%Z)) = List.length [0; 0; 0]%Z /\
  Forall (fun c => List.length c = chunkSize) (removelast (chunks [0; 0; 0]%Z)) /\
  Forall (fun c => 0 < List.length c <= chunkSize) (chunks [0; 0; 0]%Z) /\
  chunkSize = 60000 /\
  map (@List.length Z) (chunks (repeat 0%Z 60001)) = [60000; 1] /\
  chunks [] = []).
Proof.
  split; [reflexivity |].
  apply (C2_frame_chunking (fun _ => true) 0 100 "AAAA" 7 [] [0; 0; 0]%Z).
  - reflexivity.
  - intros j Hj. reflexivity.
Defined.

(** C3 (counterexample): a frame whose data is not valid base64 ("!!!!",
    session id 7) is consumed but never acked; the pump reads the next
    frame (session id 8) and acks only that one. *)
Lemma C3_counterexample :
  pump (fun _ => true) 0 100
    [Msg frame_method (Some ("!!!!", 7%Z)); Msg frame_method (Some ("AA==", 8%Z))] =
  [PRead; PRead; PText 1 true; PBin [0%Z] true; PAck 101 8].
Proof. vm_compute. reflexivity. Qed.

(** C3 (amended): for a consumed screencast frame whose params parse,
    whose data base64-decodes and whose data-channel sends succeed, the
    pump sends exactly one ack carrying that frame's screencast session id
    (id idCounter+1) after the frame's sends and before it reads the next
    message.  A frame whose params fail to unmarshal or whose data fails
    to decode is skipped without an ack, and a frame whose frame-start
    send fails ends the loop without an ack. *)
Theorem C3_ack_per_decoded_frame (dc_ok : nat -> bool) (k : nat) (idc : Z) (d64 : string)
  (sid : Z) (rest : list cdp_in) :
  (forall data, b64_decode d64 = Some data ->
     (forall j, k <= j <= k + List.length (chunks data) -> dc_ok j = true) ->
     exists pre k',
       pump dc_ok k idc (Msg frame_method (Some (d64, sid)) :: rest) =
         PRead :: pre ++ PAck (idc + 1)%Z sid :: pump dc_ok k' (idc + 1)%Z rest /\
       Forall (fun e => is_send e = true) pre) /\
  (b64_decode d64 = None ->
     pump dc_ok k idc (Msg frame_method (Some (d64, sid)) :: rest) = PRead :: pump dc_ok k idc rest) /\
  pump dc_ok k idc (Msg frame_method None :: rest) = PRead :: pump dc_ok k idc rest /\
  (forall data, b64_decode d64 = Some data -> dc_ok k = false ->
     pump dc_ok k idc (Msg frame_method (Some (d64, sid)) :: rest) =
       [PRead; PText (Z.of_nat (List.length data)) false]).
Proof.
  split; [| split; [| split]].
  - intros data Hd Hok.
    exists (PText (Z.of_nat (List.length data)) true :: map (fun c => PBin c true) (chunks data)).
    exists (S k + List.length (chunks data)).
    split; [rewrite (pump_frame_ok dc_ok k idc d64 sid rest data) by done; done |].
    constructor; [done |].
    clear Hok. induction (chunks data) as [|c cs IHc]; simpl;
      [apply List.Forall_nil | apply List.Forall_cons; done].
  - intros Hd. cbn -[b64_decode]. by rewrite Hd.
  - done.
  - intros data Hd Hk. cbn -[b64_decode send_chunks]. by rewrite Hd, Hk.
Qed.

(** C9 (code_bug, evaluated): when the send of a frame's first binary
    chunk fails (data "AA==", one byte), the pump only leaves the chunk
    loop: it still acks that frame and goes on to read and forward the
    next frame. *)
Theorem C9_chunk_send_failure_continues :
  pump (fun j => negb (Nat.eqb j 1)) 0 100
    [Msg frame_method (Some ("AA==", 7%Z)); Msg frame_method (Some ("AA==", 8%Z))] =
  [PRead; PText 1 true; PBin [0%Z] false; PAck 101 7;
   PRead; PText 1 true; PBin [0%Z] true; PAck 102 8].
Proof. vm_compute. reflexivity. Qed.

End PumpProofs.

(* ===================================================================== *)
(* 9. Session registry, ListSessions and the startup parser              *)
(* ===================================================================== *)

Module SessExtra.
Import Sess.

Lemma stop_ptr_wf (p : string) (w : World) : reg_wf w -> reg_wf (stop_ptr p w).
Proof.
  intros [Hs Hh]. unfold stop_ptr.
  destruct (heap w !! p) as [s|] eqn:Hp; [| by split].
  assert (Hid : ID (Stop s).1 = ID s) by (unfold Stop; by destruct (isClosed s)).
  destruct (Stop s) as [s' e] eqn:Hst. simpl in Hid. split; simpl.
  - intros i q Hi. destruct (Hs i q Hi) as [-> Hsome]. split; [done |].
    destruct (decide (p = i)) as [->|Hne]; [by rewrite lookup_insert_eq | by rewrite lookup_insert_ne].
  - intros q t Hq. destruct (decide (p = q)) as [->|Hne].
    + rewrite lookup_insert_eq in Hq. injection Hq as <-. rewrite Hid. by apply Hh.
    + rewrite lookup_insert_ne in Hq by done. by apply Hh.
Qed.

Lemma NewSession_ok (id : string) (start_ok : bool) (lines : list (Z * string)) (eof : option Z)
  (s : Session) (e : list effect) :
  NewSession id start_ok lines eof = (inl s, e) -> ID s = id.
Proof.
  unfold NewSession. intros H. destruct start_ok; simpl in H; [| discriminate].
  destruct (parseDevToolsURL lines eof); inversion H; done.
Qed.

(** X1: the registry invariant (every id registered under its own
    pointer, that pointer allocated, every allocated session carrying its
    pointer's id) holds for NewManager and is kept by CreateSession
    (success or failure), DeleteSession and the lifetime timer. *)
Theorem registry_wf_preserved (w : World) (id p : string) (start_ok : bool)
  (lines : list (Z * string)) (eof : option Z) :
  reg_wf w ->
  reg_wf (fst (CreateSession id start_ok lines eof w)) /\
  reg_wf (DeleteSession id w) /\ reg_wf (timer_fire p w) /\ reg_wf NewManager.
Proof.
  intros Hwf. split; [| split; [| split]].
  - unfold CreateSession. destruct (NewSession id start_ok lines eof) as [[s|err] e] eqn:E;
      [| by destruct Hwf].
    apply NewSession_ok in E. destruct Hwf as [Hs Hh]. split; simpl.
    + intros i q Hi. destruct (decide (ID s = i)) as [<-|Hne].
      * rewrite lookup_insert_eq in Hi. injection Hi as <-. by rewrite lookup_insert_eq.
      * rewrite lookup_insert_ne in Hi by done. destruct (Hs i q Hi) as [-> Hsome].
        split; [done | by rewrite lookup_insert_ne].
    + intros q t Hq. destruct (decide (ID s = q)) as [<-|Hne].
      * rewrite lookup_insert_eq in Hq. by injection Hq as <-.
      * rewrite lookup_insert_ne in Hq by done. by apply Hh.
  - unfold DeleteSession. destruct (sessions w !! id) as [q|] eqn:E; [| done].
    destruct (stop_ptr_wf q w Hwf) as [Hs Hh]. split; simpl; [| done].
    intros i q' Hi. destruct (decide (id = i)) as [<-|Hne];
      [by rewrite lookup_delete_eq in Hi | rewrite lookup_delete_ne in Hi by done; by apply Hs].
  - unfold timer_fire. destruct (heap w !! p) as [s|]; [| done].
    destruct (isClosed s); [done | by apply stop_ptr_wf].
  - split; apply map_Forall_empty.
Qed.

Lemma registry_wf_preserved_witness :
  reg_wf w1 /\
  (reg_wf (fst (CreateSession "s1" true [(100, "DevTools listening on ws://h")] None w1)) /\
   reg_wf (DeleteSession "s1" w1) /\ reg_wf (timer_fire "s1" w1) /\ reg_wf NewManager).
Proof.
  split; [apply (bool_decide_eq_true_1 _); vm_compute; reflexivity |].
  apply registry_wf_preserved. apply (bool_decide_eq_true_1 _); vm_compute; reflexivity.
Defined.

Lemma list_elem (w : World) (s : Session) :
  s ∈ ListSessions w <-> exists id, GetSession id w = Some s.
Proof.
  unfold ListSessions, GetSession. rewrite list_elem_of_omap. split.
  - intros [[i p] [Hin Hp]]. apply elem_of_map_to_list in Hin. exists i. by rewrite Hin.
  - intros [i Hi]. destruct (sessions w !! i) as [p|] eqn:E; [| done].
    exists (i, p). split; [by apply elem_of_map_to_list | done].
Qed.

Lemma list_ids (w : World) :
  reg_wf w -> map ID (ListSessions w) = map fst (map_to_list (sessions w)).
Proof.
  intros [Hs Hh]. unfold ListSessions.
  assert (Hall : Forall (fun kv => exists s, heap w !! kv.2 = Some s /\ ID s = kv.1)
                   (map_to_list (sessions w))).
  { apply Forall_forall. intros [i p] Hin. apply elem_of_map_to_list in Hin.
    destruct (Hs i p Hin) as [-> [s Hsm]]. exists s. split; [done |]. simpl. by apply (Hh i). }
  induction Hall as [|[i p] l [s [Hp Hid]] _ IH]; [done |].
  simpl in Hp, Hid.
  change (map ID (match heap w !! p with
                  | Some y => y :: omap (fun kv => heap w !! kv.2) l
                  | None => omap (fun kv => heap w !! kv.2) l
                  end) = i :: map fst l).
  rewrite Hp. simpl. rewrite Hid. f_equal. exact IH.
Qed.

(** X2: ListSessions returns exactly the sessions GetSession finds (for
    any registry), and for a well-formed registry one entry per
    registered id, with no session listed twice; a fresh Manager lists
    nothing. *)
Theorem list_sessions_registered (w : World) :
  reg_wf w ->
  (forall s, s ∈ ListSessions w <-> exists id, GetSession id w = Some s) /\
  List.length (ListSessions w) = size (sessions w) /\
  NoDup (map ID (ListSessions w)) /\
  ListSessions NewManager = [].
Proof.
  intros Hwf. split; [apply list_elem |]. split; [| split].
  - rewrite <- (length_map ID), list_ids by done. rewrite length_map. apply length_map_to_list.
  - rewrite list_ids by done. apply NoDup_fst_map_to_list.
  - reflexivity.
Qed.

Lemma list_sessions_registered_witness :
  reg_wf w1 /\
  ((forall s, s ∈ ListSessions w1 <-> exists id, GetSession id w1 = Some s) /\
   List.length (ListSessions w1) = size (sessions w1) /\
   NoDup (map ID (ListSessions w1)) /\
   ListSessions NewManager = []).
Proof.
  split; [apply (bool_decide_eq_true_1 _); vm_compute; reflexivity |].
  apply list_sessions_registered. apply (bool_decide_eq_true_1 _); vm_compute; reflexivity.
Defined.

(* String facts used by the parser proofs (stdpp makes String.append
   simpl-never, so these go by conversion). *)
Lemma prefix_app (p l : string) : String.prefix p l = true -> exists r, l = String.append p r.
Proof.
  revert l. induction p as [|c p IH]; intros l H; [by exists l |].
  destruct l as [|b l]; simpl in H; [discriminate |].
  destruct (ascii_dec c b) as [<-|]; [| discriminate].
  destruct (IH l H) as [r ->]. by exists r.
Qed.

Lemma str_app_assoc (a b c : string) :
  String.append (String.append a b) c = String.append a (String.append b c).
Proof. induction a as [|x a IH]; [done | exact (f_equal (String x) IH)]. Qed.

Lemma str_length_app (a b : string) :
  String.length (String.append a b) = (String.length a + String.length b)%nat.
Proof. induction a as [|x a IH]; [done | exact (f_equal S IH)]. Qed.

Lemma substring_app (p s : string) (m : nat) :
  String.substring (String.length p) m (String.append p s) = String.substring 0 m s.
Proof. induction p as [|x p IH]; [done | exact IH]. Qed.

Lemma substring_full (s : string) : String.substring 0 (String.length s) s = s.
Proof. induction s as [|x s IH]; [done | exact (f_equal (String x) IH)]. Qed.

Lemma str_app_nil (s : string) : String.append s EmptyString = s.
Proof. induction s as [|x s IH]; [done | exact (f_equal (String x) IH)]. Qed.

Lemma prefix_self (p x : string) : String.prefix p (String.append p x) = true.
Proof.
  induction p as [|c p IH]; [by destruct x |].
  change (String.prefix (String c p) (String c (String.append p x)) = true).
  cbn [String.prefix]. destruct (ascii_dec c c); [exact IH | done].
Qed.

Lemma find_url_head (line : string) :
  String.prefix (String.append marker "ws://") line = true ->
  (String.length marker + 5 < String.length line)%nat ->
  find_url line = Some (String.substring (String.length marker)
                          (String.length line - String.length marker) line).
Proof.
  intros Hp Hl. destruct line as [|a s]; [discriminate |].
  cbn [find_url]. rewrite Hp. apply Nat.ltb_lt in Hl. by rewrite Hl.
Qed.

Lemma find_url_step (a : ascii) (s : string) :
  find_url (String a s) =
    if String.prefix (String.append marker "ws://") (String a s)
       && Nat.ltb (String.length marker + 5) (String.length (String a s))
    then Some (String.substring (String.length marker)
                 (String.length (String a s) - String.length marker) (String a s))
    else find_url s.
Proof. reflexivity. Qed.

(** X3: the devtools-URL matcher returns the URL of Chrome's announcement
    line "DevTools listening on ws://..." unchanged, and whatever it
    returns is a "ws://" URL with at least one more character that ends
    the line right after the marker. *)
Theorem find_url_announcement :
  (forall rest, rest <> EmptyString ->
     find_url (String.append marker (String.append "ws://" rest)) = Some (String.append "ws://" rest)) /\
  (forall line u, find_url line = Some u ->
     exists pre rest, rest <> EmptyString /\ u = String.append "ws://" rest /\
       line = String.append pre (String.append marker u)).
Proof.
  split.
  - intros rest Hr. rewrite find_url_head.
    + rewrite substring_app, str_length_app.
      replace (String.length marker + String.length (String.append "ws://" rest) - String.length marker)%nat
        with (String.length (String.append "ws://" rest)) by lia.
      by rewrite substring_full.
    + rewrite <- str_app_assoc. apply prefix_self.
    + rewrite !str_length_app. destruct rest; [done |]. cbn. lia.
  - induction line as [|a s IH]; intros u H; [discriminate |].
    destruct (String.prefix (String.append marker "ws://") (String a s)
              && Nat.ltb (String.length marker + 5) (String.length (String a s))) eqn:Hc.
    + rewrite find_url_step in H.
      set (line := String a s) in *. clearbody line.
      rewrite Hc in H. injection H as <-.
      apply andb_true_iff in Hc as [Hp Hl]. apply Nat.ltb_lt in Hl.
      apply prefix_app in Hp as [r ->].
      rewrite str_app_assoc in *. rewrite str_length_app in *.
      exists EmptyString, r.
      change 22%nat with (String.length marker). rewrite substring_app.
      replace (String.length marker + String.length (String.append "ws://" r) - String.length marker)%nat
        with (String.length (String.append "ws://" r)) by lia.
      rewrite substring_full. split; [| done].
      intros ->. rewrite str_length_app in Hl. cbn in Hl. lia.
    + rewrite find_url_step, Hc in H.
      apply IH in H as (pre & rest & ? & ? & ->). by exists (String a pre), rest.
Qed.

Lemma scan_skip (pre post : list (Z * string)) :
  Forall (fun tl => Z.of_nat (String.length tl.2) < MaxScanTokenSize /\
                    find_url (drop_cr tl.2) = None) pre ->
  scan (pre ++ post) = scan post.
Proof.
  induction 1 as [|[t l] pre [Hlen Hl] _ IH]; [done |]. simpl in *.
  apply Z.leb_gt in Hlen. by rewrite Hlen, Hl.
Qed.

(** X4: parseDevToolsURL skips lines that are shorter than the
    scanner's 64 KiB limit and do not announce the URL.  After such lines
    the next line decides: an announcing line gives its URL if it arrives
    before 5 s and the timeout otherwise; a line of 64 KiB or more ends
    the scanner (ErrTooLong), which gives "scanner closed" before 5 s
    whatever follows it, and the timeout otherwise.  If stderr ends
    before 5 s with no announcement the result is "scanner closed"; if it
    stays open or ends at or after 5 s it is the timeout. *)
Theorem parse_first_match_wins (pre post : list (Z * string)) (t : Z) (l u : string) (eof : option Z) :
  Forall (fun tl => Z.of_nat (String.length tl.2) < MaxScanTokenSize /\
                    find_url (drop_cr tl.2) = None) pre ->
  (Z.of_nat (String.length l) < MaxScanTokenSize -> find_url (drop_cr l) = Some u -> t < 5000 ->
     parseDevToolsURL (pre ++ (t, l) :: post) eof = PFound u) /\
  (Z.of_nat (String.length l) < MaxScanTokenSize -> find_url (drop_cr l) = Some u -> 5000 <= t ->
     parseDevToolsURL (pre ++ (t, l) :: post) eof = PTimeout) /\
  (MaxScanTokenSize <= Z.of_nat (String.length l) -> t < 5000 ->
     parseDevToolsURL (pre ++ (t, l) :: post) eof = PClosed) /\
  (MaxScanTokenSize <= Z.of_nat (String.length l) -> 5000 <= t ->
     parseDevToolsURL (pre ++ (t, l) :: post) eof = PTimeout) /\
  (forall te, te < 5000 -> parseDevToolsURL pre (Some te) = PClosed) /\
  (forall te, 5000 <= te -> parseDevToolsURL pre (Some te) = PTimeout) /\
  parseDevToolsURL pre None = PTimeout.
Proof.
  intros Hpre. unfold parseDevToolsURL.
  rewrite (scan_skip pre ((t, l) :: post)) by done.
  pose proof (scan_skip pre [] Hpre) as Hn. rewrite app_nil_r in Hn. rewrite Hn. cbn [scan].
  split; [intros Hs Hu Ht; apply Z.leb_gt in Hs; rewrite Hs, Hu;
          by rewrite (proj2 (Z.ltb_lt t 5000) Ht) |].
  split; [intros Hs Hu Ht; apply Z.leb_gt in Hs; rewrite Hs, Hu;
          by rewrite (proj2 (Z.ltb_ge t 5000) Ht) |].
  split; [intros Hs Ht; apply Z.leb_le in Hs; rewrite Hs;
          by rewrite (proj2 (Z.ltb_lt t 5000) Ht) |].
  split; [intros Hs Ht; apply Z.leb_le in Hs; rewrite Hs;
          by rewrite (proj2 (Z.ltb_ge t 5000) Ht) |].
  split; [intros te Ht; by rewrite (proj2 (Z.ltb_lt te 5000) Ht) |].
  split; [intros te Ht; by rewrite (proj2 (Z.ltb_ge te 5000) Ht) | done].
Qed.

Lemma parse_first_match_wins_witness :
  Forall (fun tl => Z.of_nat (String.length tl.2) < MaxScanTokenSize /\
                    find_url (drop_cr tl.2) = None) [(10, "no GPU")] /\
  ((Z.of_nat (String.length "DevTools listening on ws://h") < MaxScanTokenSize ->
    find_url (drop_cr "DevTools listening on ws://h") = Some "ws://h" -> 4900 < 5000 ->
     parseDevToolsURL ([(10, "no GPU")] ++ [(4900, "DevTools listening on ws://h")]) None
     = PFound "ws://h") /\
  (Z.of_nat (String.length "DevTools listening on ws://h") < MaxScanTokenSize ->
    find_url (drop_cr "DevTools listening on ws://h") = Some "ws://h" -> 5000 <= 4900 ->
     parseDevToolsURL ([(10, "no GPU")] ++ [(4900, "DevTools listening on ws://h")]) None
     = PTimeout) /\
  (MaxScanTokenSize <= Z.of_nat (String.length "DevTools listening on ws://h") -> 4900 < 5000 ->
     parseDevToolsURL ([(10, "no GPU")] ++ [(4900, "DevTools listening on ws://h")]) None
     = PClosed) /\
  (MaxScanTokenSize <= Z.of_nat (String.length "DevTools listening on ws://h") -> 5000 <= 4900 ->
     parseDevToolsURL ([(10, "no GPU")] ++ [(4900, "DevTools listening on ws://h")]) None
     = PTimeout) /\
  (forall te, te < 5000 -> parseDevToolsURL [(10, "no GPU")] (Some te) = PClosed) /\
  (forall te, 5000 <= te -> parseDevToolsURL [(10, "no GPU")] (Some te) = PTimeout) /\
  parseDevToolsURL [(10, "no GPU")] None = PTimeout).
Proof.
  assert (H : Forall (fun tl => Z.of_nat (String.length tl.2) < MaxScanTokenSize /\
                                find_url (drop_cr tl.2) = None) [(10, "no GPU")]).
  { apply List.Forall_cons; [split; [vm_compute; reflexivity | reflexivity] | apply List.Forall_nil]. }
  split; [exact H |].
  exact (parse_first_match_wins [(10, "no GPU")] [] 4900 "DevTools listening on ws://h" "ws://h" None H).
Defined.

End SessExtra.

(* ===================================================================== *)
(* 10. The session handlers of main.go                                   *)
(* ===================================================================== *)

Module ApiExtra.
Import Api.

(** X5: when the browser starts and announces its URL in time,
    createSessionHandler answers with the requested lifetime and the
    response for the new session; the session is then registered and
    open, GET /sessions/{id}/cdp proxies to its URL, it is listed by GET
    /sessions, no other id changes, the only effect is the spawn, and
    the registry invariant is kept. *)
Theorem create_session_registers (app_host : string) (r : Url.Request) (decoded : option Z)
  (id : string) (lines : list (Z * string)) (eof : option Z) (w : Sess.World) (u : string) :
  Sess.reg_wf w -> Sess.parseDevToolsURL lines eof = Sess.PFound u ->
  let s := {| Sess.ID := id; Sess.wsURL := u; Sess.isClosed := false |} in
  let '(w', out) := createSessionHandler app_host r decoded id true lines eof w in
  out = Created (session_duration decoded) (session_response app_host r s) /\
  Sess.GetSession id w' = Some s /\
  Sess.cdpProxyHandler id w' = Sess.ProxyTo u /\
  (forall id', id' <> id -> Sess.GetSession id' w' = Sess.GetSession id' w) /\
  Sess.fx w' = Sess.fx w ++ [Sess.Spawn id] /\
  Sess.reg_wf w' /\
  session_response app_host r s ∈ listSessionsHandler app_host r w'.
Proof.
  intros Hwf Hp s.
  assert (Hc : Sess.CreateSession id true lines eof w =
    ({| Sess.heap := <[id := s]> (Sess.heap w); Sess.sessions := <[id := id]> (Sess.sessions w);
        Sess.fx := Sess.fx w ++ [Sess.Spawn id] |}, inl s)).
  { unfold Sess.CreateSession, Sess.NewSession. simpl. by rewrite Hp. }
  pose proof (SessExtra.registry_wf_preserved w id id true lines eof Hwf) as [Hwf' _].
  rewrite Hc in Hwf'. simpl in Hwf'.
  unfold createSessionHandler. rewrite Hc.
  assert (Hg : Sess.GetSession id
      {| Sess.heap := <[id := s]> (Sess.heap w); Sess.sessions := <[id := id]> (Sess.sessions w);
         Sess.fx := Sess.fx w ++ [Sess.Spawn id] |} = Some s).
  { unfold Sess.GetSession. simpl. by rewrite !lookup_insert_eq. }
  split; [done |]. split; [done |]. split; [unfold Sess.cdpProxyHandler; by rewrite Hg |].
  split; [| split; [done | split; [done |]]].
  - intros id' Hne. unfold Sess.GetSession. simpl. rewrite lookup_insert_ne by done.
    destruct (Sess.sessions w !! id') as [p|] eqn:E; [| done].
    destruct Hwf as [Hs _]. destruct (Hs id' p E) as [-> _]. by rewrite lookup_insert_ne.
  - unfold listSessionsHandler. apply list_elem_of_fmap_2. apply SessExtra.list_elem. by exists id.
Qed.

Lemma create_session_registers_witness :
  let s := {| Sess.ID := "a"; Sess.wsURL := "ws://h"; Sess.isClosed := false |} in
  let '(w', out) := createSessionHandler "h" Url.req_xfp_http (Some 10) "a" true
                      [(100, "DevTools listening on ws://h")] None Sess.w1 in
  out = Created (session_duration (Some 10)) (session_response "h" Url.req_xfp_http s) /\
  Sess.GetSession "a" w' = Some s /\
  Sess.cdpProxyHandler "a" w' = Sess.ProxyTo "ws://h" /\
  (forall id', id' <> "a" -> Sess.GetSession id' w' = Sess.GetSession id' Sess.w1) /\
  Sess.fx w' = Sess.fx Sess.w1 ++ [Sess.Spawn "a"] /\
  Sess.reg_wf w' /\
  session_response "h" Url.req_xfp_http s ∈ listSessionsHandler "h" Url.req_xfp_http w'.
Proof.
  apply (create_session_registers "h" Url.req_xfp_http (Some 10) "a"
           [(100, "DevTools listening on ws://h")] None Sess.w1 "ws://h").
  - apply (bool_decide_eq_true_1 _). vm_compute. reflexivity.
  - reflexivity.
Defined.

(** X6: when the browser fails to start or does not announce its URL in
    time, createSessionHandler answers with the error (500) and neither
    the registry nor the list returned by GET /sessions changes. *)
Theorem create_session_failure_unchanged (app_host : string) (r : Url.Request) (decoded : option Z)
  (id : string) (start_ok : bool) (lines : list (Z * string)) (eof : option Z) (w : Sess.World) :
  (start_ok = false \/ forall u, Sess.parseDevToolsURL lines eof <> Sess.PFound u) ->
  let '(w', out) := createSessionHandler app_host r decoded id start_ok lines eof w in
  (exists e, out = CreateFailed e) /\
  Sess.sessions w' = Sess.sessions w /\ Sess.heap w' = Sess.heap w /\
  Sess.ListSessions w' = Sess.ListSessions w /\
  listSessionsHandler app_host r w' = listSessionsHandler app_host r w.
Proof.
  intros Hfail. unfold createSessionHandler, Sess.CreateSession, Sess.NewSession.
  destruct start_ok; simpl.
  - destruct Hfail as [Hf | Hf]; [discriminate |].
    destruct (Sess.parseDevToolsURL lines eof) as [u| |] eqn:E; [by destruct (Hf u) | |];
      (split; [eexists; reflexivity | done]).
  - split; [eexists; reflexivity | done].
Qed.

Lemma create_session_failure_unchanged_witness :
  let '(w', out) := createSessionHandler "h" Url.req_xfp_http None "a" false [] None Sess.w1 in
  (exists e, out = CreateFailed e) /\
  Sess.sessions w' = Sess.sessions Sess.w1 /\ Sess.heap w' = Sess.heap Sess.w1 /\
  Sess.ListSessions w' = Sess.ListSessions Sess.w1 /\
  listSessionsHandler "h" Url.req_xfp_http w' = listSessionsHandler "h" Url.req_xfp_http Sess.w1.
Proof.
  apply (create_session_failure_unchanged "h" Url.req_xfp_http None "a" false [] None Sess.w1).
  left. reflexivity.
Defined.

(** X7: createSessionHandler never uses a non-positive minute count: a
    body that fails to decode, or a duration_minutes <= 0, gives 5
    minutes.  The lifetime is minutes * time.Minute exactly (and
    positive) up to 153722867 minutes; at 153722868 minutes the int64
    product wraps around to a negative duration. *)
Theorem duration_defaults_and_wrap (decoded : option Z) :
  1 <= duration_minutes decoded /\
  duration_minutes None = 5 /\
  (forall m, m <= 0 -> duration_minutes (Some m) = 5) /\
  (forall m, 1 <= m <= 153722867 ->
     session_duration (Some m) = m * minute_ns /\ 0 < session_duration (Some m)) /\
  session_duration (Some 153722868) < 0.
Proof.
  split; [unfold duration_minutes; destruct decoded as [m|]; [destruct (Z.leb_spec m 0)|]; simpl; lia |].
  split; [reflexivity |]. split.
  - intros m Hm. unfold duration_minutes. by rewrite (proj2 (Z.leb_le m 0) Hm).
  - split; [| vm_compute; reflexivity].
    intros m Hm. unfold session_duration, duration_minutes, wrap_int64, minute_ns.
    rewrite (proj2 (Z.leb_gt m 0)) by lia.
    rewrite Z.mod_small by lia. lia.
Qed.

End ApiExtra.

(* ===================================================================== *)
(* 11. WHIP endpoints                                                    *)
(* ===================================================================== *)

Module WhipExtra.
Import Whip.

(** X8: whipResourceHandler on an unknown resource answers 404 and
    changes nothing, whatever the method.  On a registered resource PATCH
    answers 204 and other methods 405 without change; DELETE answers 200,
    removes the resource and closes its peer connection once; a repeated
    DELETE then answers 404, and the Closed-state callback that the close
    triggers changes nothing more. *)
Theorem whip_resource_delete_once (rid : string) (w : WState) :
  (whipResources w !! rid = None ->
     forall m, whipResourceHandler m rid w = (w, 404)) /\
  (forall res, whipResources w !! rid = Some res ->
     whipResourceHandler MPatch rid w = (w, 204) /\
     whipResourceHandler MOther rid w = (w, 405) /\
     let '(w2, code) := whipResourceHandler MDelete rid w in
     code = 200 /\
     whipResources w2 = delete rid (whipResources w) /\
     closes w2 = closes w ++ option_list (PeerConnection res) /\
     whipResourceHandler MDelete rid w2 = (w2, 404) /\
     on_state_change rid PCClosed w2 = w2).
Proof.
  split.
  - intros Hn m. unfold whipResourceHandler. by rewrite Hn.
  - intros res Hr. unfold whipResourceHandler. rewrite Hr.
    split; [done |]. split; [done |].
    split; [done |]. split; [done |].
    split; [destruct (PeerConnection res); simpl; [done | by rewrite app_nil_r] |].
    simpl. rewrite lookup_delete_eq. split; [done |].
    unfold on_state_change. simpl. by rewrite delete_delete_eq.
Qed.

(** X9: whatever sequence of connection states the peer connection of
    resource rid goes through, its state-change callback never closes a
    connection and never touches another resource; rid stays registered
    exactly until the first failed or closed state, and is gone after
    it. *)
Theorem whip_state_changes_never_close (rid : string) (ss : list pc_state) (w : WState) :
  let w' := fold_left (fun w st => on_state_change rid st w) ss w in
  closes w' = closes w /\
  (forall rid', rid' <> rid -> whipResources w' !! rid' = whipResources w !! rid') /\
  whipResources w' !! rid =
    (if existsb (fun st => pc_state_eqb st PCFailed || pc_state_eqb st PCClosed) ss
     then None else whipResources w !! rid).
Proof.
  cbn zeta. revert w. induction ss as [|st ss IH]; intros w; [done |].
  cbn [fold_left existsb].
  destruct (IH (on_state_change rid st w)) as (Hc & Ho & Hr).
  unfold on_state_change in *.
  destruct (pc_state_eqb st PCFailed || pc_state_eqb st PCClosed); simpl in *.
  - split; [done |]. split.
    + intros rid' Hne. rewrite Ho by done. simpl. by rewrite lookup_delete_ne.
    + rewrite Hr. destruct (existsb _ ss); [done |]. simpl. apply lookup_delete_eq.
  - done.
Qed.

Lemma get_after_delete (id : string) (sw : Sess.World) :
  Sess.GetSession id (Sess.DeleteSession id sw) = None.
Proof.
  unfold Sess.DeleteSession, Sess.GetSession.
  destruct (Sess.sessions sw !! id) eqn:E; simpl; [by rewrite lookup_delete_eq | by rewrite E].
Qed.

(** X10: whipHandler checks, in order, the method (405 unless POST), the
    session (404 if GetSession fails, in particular after DeleteSession)
    and the Content-Type (400 unless application/sdp) before reading the
    body.  It then allocates Content-Length bytes: a negative value
    (chunked body) or one above maxAlloc panics, and one the runtime
    cannot obtain crashes the process.  None of these touches the WHIP
    registry. *)
Theorem whip_request_gates (sw : Sess.World) (mem : Z) (sid : string) (req : WhipRequest)
  (p : Pion) (rid pc : string) (w : WState) :
  (wMethod req <> "POST" -> whipHandler sw mem sid req p rid pc w = (w, WStatus 405)) /\
  (wMethod req = "POST" -> Sess.GetSession sid sw = None ->
     whipHandler sw mem sid req p rid pc w = (w, WStatus 404)) /\
  (wMethod req = "POST" ->
     whipHandler (Sess.DeleteSession sid sw) mem sid req p rid pc w = (w, WStatus 404)) /\
  (wMethod req = "POST" -> is_Some (Sess.GetSession sid sw) ->
     wContentType req <> "application/sdp" ->
     whipHandler sw mem sid req p rid pc w = (w, WStatus 400)) /\
  (wMethod req = "POST" -> is_Some (Sess.GetSession sid sw) ->
     wContentType req = "application/sdp" ->
     wContentLength req < 0 \/ maxAlloc < wContentLength req ->
     whipHandler sw mem sid req p rid pc w = (w, WPanic)) /\
  (wMethod req = "POST" -> is_Some (Sess.GetSession sid sw) ->
     wContentType req = "application/sdp" ->
     0 <= wContentLength req <= maxAlloc -> mem < wContentLength req ->
     whipHandler sw mem sid req p rid pc w = (w, WCrash)).
Proof.
  unfold whipHandler.
  split; [intros Hm; by rewrite (proj2 (String.eqb_neq _ _) Hm) |].
  split; [intros -> Hs; by rewrite Hs |].
  split; [intros ->; by rewrite get_after_delete |].
  split; [| split].
  - intros -> [s Hs] Hc. rewrite Hs. simpl. by rewrite (proj2 (String.eqb_neq _ _) Hc).
  - intros -> [s Hs] -> Hl. rewrite Hs. simpl. unfold read_offer.
    destruct Hl as [Hl | Hl].
    + by rewrite (proj2 (Z.ltb_lt _ 0) Hl).
    + rewrite (proj2 (Z.ltb_lt maxAlloc _) Hl). by rewrite orb_true_r.
  - intros -> [s Hs] -> Hl Hm. rewrite Hs. simpl. unfold read_offer.
    rewrite (proj2 (Z.ltb_ge _ 0)) by lia. rewrite (proj2 (Z.ltb_ge maxAlloc _)) by lia.
    by rewrite (proj2 (Z.ltb_lt mem _) Hm).
Qed.

(** X11: every whipHandler outcome other than 201 leaves the registry and
    the close trace unchanged.  A 201 happens only for a POST on an
    existing session; its Location is /sessions/{id}/whip/{resourceId},
    its body the local description, and it registers exactly that
    resource with the new peer connection.  DELETE on that Location then
    answers 200, closes the connection and, for a fresh resource id,
    gives back the registry as it was before the POST. *)
Theorem whip_created_round_trip (sw : Sess.World) (mem : Z) (sid : string) (req : WhipRequest)
  (p : Pion) (rid pc : string) (w : WState) :
  let '(w', out) := whipHandler sw mem sid req p rid pc w in
  ((forall code, out = WStatus code -> w' = w) /\ (out = WPanic -> w' = w) /\
   (out = WCrash -> w' = w)) /\
  (forall loc sdp, out = WCreated loc sdp ->
     wMethod req = "POST" /\ is_Some (Sess.GetSession sid sw) /\
     loc = String.append "/sessions/" (String.append sid (String.append "/whip/" rid)) /\
     sdp = localSDP p /\
     whipResources w' = <[rid := {| rID := rid; PeerConnection := Some pc; SessionID := sid |}]>
                          (whipResources w) /\
     closes w' = closes w /\
     (whipResources w !! rid = None ->
        whipResourceHandler MDelete rid w' =
          ({| whipResources := whipResources w; closes := closes w ++ [pc] |}, 200))).
Proof.
  unfold whipHandler.
  destruct (String.eqb (wMethod req) "POST") eqn:Em; simpl;
    [| split; [split_and!; done | intros; discriminate]].
  destruct (Sess.GetSession sid sw) eqn:Es; simpl;
    [| split; [split_and!; done | intros; discriminate]].
  destruct (String.eqb (wContentType req) "application/sdp"); simpl;
    [| split; [split_and!; done | intros; discriminate]].
  destruct (read_offer mem (wContentLength req) (wBody req)) as [| |offer];
    [split; [split_and!; done | intros; discriminate].. |].
  destruct (wReadErr req); simpl; [split; [split_and!; done | intros; discriminate] |].
  destruct (pcOK p); simpl; [| split; [split; done | intros; discriminate]].
  destruct (remoteOK p offer); simpl; [| split; [split; done | intros; discriminate]].
  destruct (answerOK p); simpl; [| split; [split; done | intros; discriminate]].
  destruct (localOK p); simpl; [| split; [split; done | intros; discriminate]].
  split; [split_and!; [intros; discriminate | discriminate | discriminate] |].
  intros loc sdp Hc. injection Hc as <- <-.
  split; [by apply String.eqb_eq |]. split; [by eexists |].
  split; [done |]. split; [done |]. split; [done |]. split; [done |].
  intros Hfresh. unfold whipResourceHandler. simpl. rewrite lookup_insert_eq. simpl.
  by rewrite delete_insert_id.
Qed.

Lemma zeros_length (n : nat) : String.length (zeros n) = n.
Proof. induction n as [|n IH]; [done | exact (f_equal S IH)]. Qed.

Lemma substring_prefix_length (c : string) (n : nat) :
  (n <= String.length c)%nat -> String.length (String.substring 0 n c) = n.
Proof.
  revert n. induction c as [|x c IH]; intros n Hn; destruct n as [|n]; try done.
  - simpl in Hn. lia.
  - change (S (String.length (String.substring 0 n c)) = S n). f_equal. apply IH.
    change (S n <= S (String.length c))%nat in Hn. lia.
Qed.

(** X12: the SDP offer buffer: a Content-Length that is negative or
    above maxAlloc panics, one within maxAlloc that the runtime cannot
    obtain crashes the process, and otherwise the offer has exactly
    Content-Length bytes.  It is the body itself when the first read
    delivers the whole body, and all zero bytes when the body delivers
    nothing. *)
Theorem read_offer_exact_length :
  (forall mem cl chunks, cl < 0 \/ maxAlloc < cl -> read_offer mem cl chunks = ReadPanic) /\
  (forall mem cl chunks, 0 <= cl <= maxAlloc -> mem < cl -> read_offer mem cl chunks = ReadOOM) /\
  (forall mem cl chunks, 0 <= cl <= maxAlloc -> cl <= mem ->
     exists sdp, read_offer mem cl chunks = ReadOffer sdp /\ String.length sdp = Z.to_nat cl) /\
  (forall mem c rest, Z.of_nat (String.length c) <= maxAlloc -> Z.of_nat (String.length c) <= mem ->
     read_offer mem (Z.of_nat (String.length c)) (c :: rest) = ReadOffer c) /\
  (forall mem cl, 0 <= cl <= maxAlloc -> cl <= mem -> read_offer mem cl [] = ReadOffer (zeros (Z.to_nat cl))).
Proof.
  assert (Hok : forall mem cl chunks, 0 <= cl <= maxAlloc -> cl <= mem ->
     read_offer mem cl chunks =
       match chunks with
       | [] => ReadOffer (zeros (Z.to_nat cl))
       | c :: _ =>
           let n := Nat.min (Z.to_nat cl) (String.length c) in
           ReadOffer (String.append (String.substring 0 n c) (zeros (Z.to_nat cl - n)))
       end).
  { intros mem cl chunks Hcl Hm. unfold read_offer.
    rewrite (proj2 (Z.ltb_ge cl 0)) by lia. rewrite (proj2 (Z.ltb_ge maxAlloc cl)) by lia.
    by rewrite (proj2 (Z.ltb_ge mem cl) Hm). }
  split; [| split; [| split; [| split]]].
  - intros mem cl chunks Hl. unfold read_offer. destruct Hl as [Hl | Hl].
    + by rewrite (proj2 (Z.ltb_lt _ 0) Hl).
    + rewrite (proj2 (Z.ltb_lt maxAlloc _) Hl). by rewrite orb_true_r.
  - intros mem cl chunks Hcl Hm. unfold read_offer.
    rewrite (proj2 (Z.ltb_ge cl 0)) by lia. rewrite (proj2 (Z.ltb_ge maxAlloc cl)) by lia.
    by rewrite (proj2 (Z.ltb_lt mem cl) Hm).
  - intros mem cl chunks Hcl Hm. rewrite Hok by done.
    destruct chunks as [|c rest]; eexists; split; try reflexivity.
    + apply zeros_length.
    + rewrite SessExtra.str_length_app, zeros_length, substring_prefix_length by lia. lia.
  - intros mem c rest Hc Hm. rewrite Hok by lia. cbv zeta.
    rewrite Nat2Z.id, Nat.min_id, Nat.sub_diag.
    by rewrite SessExtra.substring_full, SessExtra.str_app_nil.
  - intros mem cl Hcl Hm. by rewrite Hok.
Qed.

End WhipExtra.

(* ===================================================================== *)
(* 12. ProxyCDP                                                          *)
(* ===================================================================== *)

Module CdpExtra.
Import Cdp.

Lemma relay_transparent (src : list (option ws_message)) (ok : nat -> bool) (k : nat) :
  (exists rest, reads_ok src = fst (relay src ok k) ++ rest) /\
  ((forall j, ok j = true) -> relay src ok k = (reads_ok src, existsb is_read_err src)).
Proof.
  revert k. induction src as [|[m|] src IH]; intros k; simpl.
  - split; [by exists [] | done].
  - destruct (ok k) eqn:Ek.
    + destruct (relay src ok (S k)) as [out e] eqn:Er. simpl.
      destruct (IH (S k)) as [[rest Hrest] Hall]. rewrite Er in Hrest, Hall. simpl in Hrest.
      split; [exists rest; by rewrite Hrest |].
      intros Hok. specialize (Hall Hok). injection Hall as -> ->. done.
    + split; [by exists (m :: reads_ok src) |]. intros Hok. by rewrite Hok in Ek.
  - split; [by exists [] | done].
Qed.

(** X13: ProxyCDP answers 502 when it cannot dial the browser.  Once
    relaying, each direction forwards an in-order, unmodified prefix of
    the messages its source delivers before a read error; when every
    write succeeds it forwards all of them, and the proxy ends exactly
    when one of the two sources fails. *)
Theorem proxy_relay_prefix (ft fc : list (option ws_message)) (cok tok : nat -> bool)
  (down up : list ws_message) (ended : bool) :
  ProxyCDP false true ft fc cok tok = DialFailed /\
  (ProxyCDP true true ft fc cok tok = Relayed down up ended ->
   (exists r1, reads_ok ft = down ++ r1) /\ (exists r2, reads_ok fc = up ++ r2) /\
   ((forall j, cok j = true) -> (forall j, tok j = true) ->
      down = reads_ok ft /\ up = reads_ok fc /\
      ended = existsb is_read_err ft || existsb is_read_err fc)).
Proof.
  split; [done |]. intros H. unfold ProxyCDP in H. simpl in H.
  destruct (relay ft cok 0) as [d e1] eqn:E1. destruct (relay fc tok 0) as [u e2] eqn:E2.
  injection H as <- <- <-.
  destruct (relay_transparent ft cok 0) as [H1 H1']. destruct (relay_transparent fc tok 0) as [H2 H2'].
  rewrite E1 in H1, H1'. rewrite E2 in H2, H2'.
  split; [done |]. split; [done |].
  intros Hc Ht. specialize (H1' Hc). specialize (H2' Ht).
  injection H1' as -> ->. injection H2' as -> ->. done.
Qed.

End CdpExtra.

(* ===================================================================== *)
(* 13. The screencast pump: decoding, acks, forwarding, automation       *)
(* ===================================================================== *)

Module PumpExtra.
Import Pump.
Local Opaque chunkSize.

Lemma land255_range (x : Z) : 0 <= Z.land x 255 < 256.
Proof.
  change 255 with (Z.ones 8). rewrite Z.land_ones by lia.
  apply Z.mod_pos_bound. lia.
Qed.

Lemma bytes_range (v1 v2 v3 v4 : Z) :
  0 <= byte1 v1 v2 < 256 /\ 0 <= byte2 v2 v3 < 256 /\ 0 <= byte3 v3 v4 < 256.
Proof. unfold byte1, byte2, byte3. split_and!; apply land255_range. Qed.

Lemma decode_quanta_shape (cs : list ascii) (d : list Z) :
  decode_quanta cs = Some d ->
  exists q pad, (pad <= 2)%nat /\ List.length cs = (4 * q)%nat /\
    (List.length d + pad = 3 * q)%nat /\ Forall (fun b => 0 <= b < 256) d.
Proof.
  remember (List.length cs) as n eqn:Hn. revert cs d Hn.
  induction n as [n IH] using lt_wf_ind. intros cs d Hn H.
  destruct cs as [|c1 [|c2 [|c3 [|c4 rest]]]]; simpl in H; try discriminate.
  - injection H as <-. exists 0%nat, 0%nat. simpl in *. split_and!; [lia | lia | lia | constructor].
  - destruct (b64val c1) as [v1|], (b64val c2) as [v2|]; try discriminate.
    pose proof (bytes_range v1 v2) as Hb.
    destruct (is_pad c3 && is_pad c4).
    + destruct rest; [| discriminate]. injection H as <-.
      exists 1%nat, 2%nat. simpl in *. destruct (Hb 0 0) as (? & _ & _).
      split_and!; [lia | lia | lia | repeat (apply List.Forall_cons; [lia |]); try apply List.Forall_nil; done].
    + destruct (b64val c3) as [v3|]; [| discriminate].
      destruct (is_pad c4).
      * destruct rest; [| discriminate]. injection H as <-.
        exists 1%nat, 1%nat. simpl in *. destruct (Hb v3 0) as (? & ? & _).
        split_and!; [lia | lia | lia | repeat (apply List.Forall_cons; [lia |]); try apply List.Forall_nil; done].
      * destruct (b64val c4) as [v4|]; [| discriminate].
        destruct (decode_quanta rest) as [bs|] eqn:Er; [| discriminate].
        injection H as <-.
        destruct (IH (List.length rest) ltac:(simpl in Hn; lia) rest bs eq_refl Er)
          as (q & pad & Hp & Hl & Hd & Hf).
        exists (S q), pad. simpl in *. destruct (Hb v3 v4) as (? & ? & ?).
        split_and!; [lia | lia | lia | repeat (apply List.Forall_cons; [lia |]); try apply List.Forall_nil; done].
Qed.

(** X14: a successful base64 decode yields bytes (every value in
    0..255), and the input with line breaks removed has 4q characters
    for 3q - pad output bytes, pad <= 2. *)
Theorem b64_decode_bytes (s : string) (d : list Z) :
  b64_decode s = Some d ->
  Forall (fun b => 0 <= b < 256) d /\
  exists q pad, (pad <= 2)%nat /\ (List.length d + pad = 3 * q)%nat /\
    List.length (filter (fun c => negb (Ascii.eqb c "010"%char || Ascii.eqb c "013"%char))
                        (list_ascii_of_string s)) = (4 * q)%nat.
Proof.
  unfold b64_decode. intros H. apply decode_quanta_shape in H as (q & pad & ? & ? & ? & ?).
  split; [done |]. exists q, pad. done.
Qed.

Lemma b64_decode_bytes_witness :
  b64_decode "/w==" = Some [255] /\
  (Forall (fun b => 0 <= b < 256) [255] /\
   exists q pad, (pad <= 2)%nat /\ (List.length [255] + pad = 3 * q)%nat /\
     List.length (filter (fun c => negb (Ascii.eqb c "010"%char || Ascii.eqb c "013"%char))
                         (list_ascii_of_string "/w==")) = (4 * q)%nat).
Proof. split; [reflexivity |]. apply b64_decode_bytes. reflexivity. Defined.

Lemma send_chunks_no_ack (fuel : nat) (ok : nat -> bool) (k i : nat) (data : list Z) :
  ack_ids (send_chunks fuel ok k i data).1 = [].
Proof.
  revert k i. induction fuel as [|f IH]; intros k i; [done |]. simpl.
  destruct (Nat.ltb i (List.length data)); [| done].
  destruct (ok k); [| done].
  destruct (send_chunks f ok (S k) (i + chunkSize)%nat data) as [tr k'] eqn:E. simpl.
  specialize (IH (S k) (i + chunkSize)%nat). rewrite E in IH. exact IH.
Qed.

Lemma ack_ids_app (l1 l2 : list pev) : ack_ids (l1 ++ l2) = ack_ids l1 ++ ack_ids l2.
Proof. unfold ack_ids. apply omap_app. Qed.

Lemma seq_ids_shift (idc : Z) (n : nat) :
  map (fun j => (idc + 1) + Z.of_nat j) (seq 1 n) = map (fun j => idc + Z.of_nat j) (seq 2 n).
Proof.
  rewrite <- (seq_shift n 1), map_map. apply map_ext. intros j. lia.
Qed.

Lemma seq_ids_nodup (idc : Z) (s n : nat) :
  NoDup (map (fun j => idc + Z.of_nat j) (seq s n)) /\
  Forall (fun a => idc + Z.of_nat s <= a) (map (fun j => idc + Z.of_nat j) (seq s n)).
Proof.
  revert s. induction n as [|n IH]; intros s; simpl; [split; constructor |].
  destruct (IH (S s)) as [Hnd Hall]. split.
  - constructor; [| done]. intros Hin.
    rewrite List.Forall_forall in Hall. pose proof (Hall _ (proj1 (list_elem_of_In _ _) Hin)). lia.
  - constructor; [lia |]. eapply List.Forall_impl; [| exact Hall]. intros a Ha. simpl in Ha. lia.
Qed.

(** X15: the ack ids the pump sends are idCounter+1, idCounter+2, ...
    in order, whatever the input and the send outcomes: they are
    pairwise distinct and all above idCounter (so, from 100, never equal
    to the ids 1, 2, 3 and 10 of the setup commands). *)
Theorem ack_ids_consecutive (dc_ok : nat -> bool) (k : nat) (idc : Z) (msgs : list cdp_in) :
  exists n, ack_ids (pump dc_ok k idc msgs) = map (fun j => idc + Z.of_nat j) (seq 1 n) /\
    NoDup (ack_ids (pump dc_ok k idc msgs)) /\
    Forall (fun a => idc < a) (ack_ids (pump dc_ok k idc msgs)).
Proof.
  cut (exists n, ack_ids (pump dc_ok k idc msgs) = map (fun j => idc + Z.of_nat j) (seq 1 n)).
  { intros [n Hn]. exists n. rewrite Hn. destruct (seq_ids_nodup idc 1 n) as [? Hall].
    split; [done | split; [done |]]. eapply List.Forall_impl; [| exact Hall]. simpl. lia. }
  revert k idc. induction msgs as [|m msgs IH]; intros k idc.
  - by exists 0%nat.
  - destruct m as [| |meth params]; cbn -[send_chunks b64_decode ack_ids].
    + by exists 0%nat.
    + exact (IH k idc).
    + destruct (String.eqb meth frame_method); [| exact (IH k idc)].
      destruct params as [[d64 sid]|]; [| exact (IH k idc)].
      destruct (b64_decode d64) as [data|]; [| exact (IH k idc)].
      destruct (dc_ok k); [| by exists 0%nat].
      destruct (send_chunks (S (List.length data)) dc_ok (S k) 0 data) as [tr k'] eqn:E.
      destruct (IH k' (idc + 1)) as [n Hn]. exists (S n).
      pose proof (send_chunks_no_ack (S (List.length data)) dc_ok (S k) 0 data) as H0.
      rewrite E in H0. simpl in H0.
      change (ack_ids (PRead :: PText (Z.of_nat (List.length data)) true ::
                       tr ++ PAck (idc + 1) sid :: pump dc_ok k' (idc + 1) msgs))
        with (ack_ids (tr ++ PAck (idc + 1) sid :: pump dc_ok k' (idc + 1) msgs)).
      rewrite ack_ids_app, H0. simpl.
      change (ack_ids (PAck (idc + 1) sid :: pump dc_ok k' (idc + 1) msgs))
        with ((idc + 1) :: ack_ids (pump dc_ok k' (idc + 1) msgs)).
      rewrite Hn, seq_ids_shift. done.
Qed.

Lemma filter_sends_app (l1 l2 : list pev) :
  List.filter is_send (l1 ++ l2) = List.filter is_send l1 ++ List.filter is_send l2.
Proof. induction l1 as [|e l1 IH]; simpl; [done |]. destruct (is_send e); simpl; by rewrite IH. Qed.

Lemma filter_sends_bins (cs : list (list Z)) :
  List.filter is_send (map (fun c => PBin c true) cs) = map (fun c => PBin c true) cs.
Proof. induction cs as [|c cs IH]; simpl; [done | by rewrite IH]. Qed.

Lemma ack_ids_frame (n : Z) (b : bool) (cs : list (list Z)) (a sid : Z) (rest : list pev) :
  ack_ids (PRead :: PText n b :: map (fun c => PBin c true) cs ++ PAck a sid :: rest) =
  a :: ack_ids rest.
Proof.
  change (ack_ids (map (fun c => PBin c true) cs ++ PAck a sid :: rest) = a :: ack_ids rest).
  unfold ack_ids. rewrite omap_app.
  assert (H : omap (fun e => match e with PAck id _ => Some id | _ => None end)
                (map (fun c => PBin c true) cs) = []).
  { induction cs as [|c cs IH]; [done | exact IH]. }
  rewrite H. reflexivity.
Qed.

(** X16: when every data-channel send succeeds, the messages sent on the
    data channel are, frame after frame in input order, the frame-start
    and the chunks of each screencast frame whose params parse and whose
    data decodes (up to the first read error); all other messages send
    nothing, and exactly one ack is sent per forwarded frame. *)
Theorem pump_forwards_decoded_frames (k : nat) (idc : Z) (msgs : list cdp_in) :
  List.filter is_send (pump (fun _ => true) k idc msgs) = List.flat_map frame_sends (decoded_frames msgs) /\
  List.length (ack_ids (pump (fun _ => true) k idc msgs)) = List.length (decoded_frames msgs).
Proof.
  revert k idc. induction msgs as [|m msgs IH]; intros k idc; [done |].
  destruct m as [| |meth params]; cbn -[send_chunks b64_decode ack_ids frame_sends pump].
  - done.
  - change (pump (fun _ => true) k idc (BadJSON :: msgs)) with (PRead :: pump (fun _ => true) k idc msgs).
    exact (IH k idc).
  - destruct (String.eqb meth frame_method) eqn:Em.
    2: { change (pump (fun _ => true) k idc (Msg meth params :: msgs))
           with (PRead :: if String.eqb meth frame_method then
                   match params with
                   | None => pump (fun _ => true) k idc msgs
                   | Some (d64, sid) =>
                       match b64_decode d64 with
                       | None => pump (fun _ => true) k idc msgs
                       | Some data =>
                           let '(tr, k') := send_chunks (S (List.length data)) (fun _ => true) (S k) 0 data in
                           PText (Z.of_nat (List.length data)) true ::
                           tr ++ PAck (idc + 1) sid :: pump (fun _ => true) k' (idc + 1) msgs
                       end
                   end else pump (fun _ => true) k idc msgs).
         rewrite Em. exact (IH k idc). }
    apply String.eqb_eq in Em. subst meth.
    destruct params as [[d64 sid]|].
    2: { exact (IH k idc). }
    destruct (b64_decode d64) as [data|] eqn:Ed.
    2: { change (pump (fun _ => true) k idc (Msg frame_method (Some (d64, sid)) :: msgs))
           with (PRead :: match b64_decode d64 with
                          | None => pump (fun _ => true) k idc msgs
                          | Some data =>
                              let '(tr, k') := send_chunks (S (List.length data)) (fun _ => true) (S k) 0 data in
                              PText (Z.of_nat (List.length data)) true ::
                              tr ++ PAck (idc + 1) sid :: pump (fun _ => true) k' (idc + 1) msgs
                          end).
         rewrite Ed. exact (IH k idc). }
    rewrite (PumpProofs.pump_frame_ok (fun _ => true) k idc d64 sid msgs data Ed) by done.
    destruct (IH (S k + List.length (chunks data))%nat (idc + 1)) as [IH1 IH2].
    split.
    + cbn [List.filter is_send]. rewrite filter_sends_app, filter_sends_bins. cbn [List.filter is_send].
      rewrite IH1. done.
    + rewrite ack_ids_frame. cbn [List.length]. by rewrite IH2.
Qed.

(** X17: the page target chosen for the screencast is the first target
    of type "page" with a non-empty debugger URL, and it is the one
    streamScreencastToDataChannel dials.  The selection is "" exactly
    when there is no such target, and then the function returns without
    dialling, writing any command or starting the read loop. *)
Theorem select_page_first_match (ts : list Target) :
  (select_page ts = EmptyString <-> Forall (fun t => is_page_target t = false) ts) /\
  (forall u, select_page ts = u -> u <> EmptyString ->
     exists pre t post, ts = pre ++ t :: post /\ is_page_target t = true /\
       webSocketDebuggerUrl t = u /\ Forall (fun t' => is_page_target t' = false) pre) /\
  (forall dial_ok start_ok, select_page ts = EmptyString ->
     stream_setup (Some (Some ts)) dial_ok start_ok = (None, [], SetupAbort)) /\
  (forall dial_ok start_ok, select_page ts <> EmptyString ->
     fst (fst (stream_setup (Some (Some ts)) dial_ok start_ok)) = Some (select_page ts)).
Proof.
  assert (Hsel : (select_page ts = EmptyString <-> Forall (fun t => is_page_target t = false) ts) /\
    (forall u, select_page ts = u -> u <> EmptyString ->
     exists pre t post, ts = pre ++ t :: post /\ is_page_target t = true /\
       webSocketDebuggerUrl t = u /\ Forall (fun t' => is_page_target t' = false) pre)).
  { induction ts as [|t ts [IH1 IH2]]; simpl.
    - split; [split; [constructor | done] | done].
    - destruct (is_page_target t) eqn:Ht.
      + split.
        * split; [| intros Hf; inversion Hf; congruence].
          intros He. unfold is_page_target in Ht. apply andb_true_iff in Ht as [_ Hn].
          rewrite He in Hn. discriminate.
        * intros u Hu _. exists [], t, ts. split_and!; [done | done | done | constructor].
      + split.
        * rewrite IH1. split; [intros H; by constructor | intros H; by inversion H].
        * intros u Hu Hne. destruct (IH2 u Hu Hne) as (pre & t' & post & -> & ? & ? & ?).
          exists (t :: pre), t', post. split_and!; [done | done | done | by constructor]. }
  destruct Hsel as [H1 H2]. split; [done |]. split; [done |]. split.
  - intros d st He. unfold stream_setup. cbv zeta. by rewrite He.
  - intros d st Hne. unfold stream_setup. cbv zeta.
    rewrite (proj2 (String.eqb_neq _ _) Hne). by destruct d.
Qed.

Lemma automation_sums (fuel : nat) (ok : nat -> bool) (k : nat) (b : bool) (n : nat) :
  sumZ (firstn n (automation fuel ok k b)) = 0 \/
  sumZ (firstn n (automation fuel ok k b)) = (if b then 100 else -100).
Proof.
  revert k b n. induction fuel as [|f IH]; intros k b n; simpl.
  - left. by rewrite firstn_nil.
  - destruct n as [|n]; [by left |]. simpl.
    destruct (ok k).
    + destruct (IH (S k) (negb b) n) as [-> | ->]; destruct b; simpl; lia.
    + rewrite firstn_nil. simpl. right. destruct b; lia.
Qed.

(** X18: the automated scrolling alternates scrollBy(0, 100) and
    scrollBy(0, -100), starting downwards, until a write fails; so the
    net scroll offset after any number of commands is 0 or 100. *)
Theorem automation_net_scroll (fuel : nat) (ok : nat -> bool) :
  Forall (fun y => y = 100 \/ y = -100) (automation fuel ok 0 true) /\
  (forall n, sumZ (firstn n (automation fuel ok 0 true)) = 0 \/
             sumZ (firstn n (automation fuel ok 0 true)) = 100) /\
  (forall j, (j < List.length (automation fuel ok 0 true))%nat ->
     nth j (automation fuel ok 0 true) 0 = if Nat.even j then 100 else -100).
Proof.
  split; [| split].
  - generalize 0%nat at 1 as k. generalize true as b.
    induction fuel as [|f IH]; intros b k; simpl; [constructor |].
    constructor; [destruct b; [by left | by right] |].
    destruct (ok k); [apply IH | constructor].
  - intros n. exact (automation_sums fuel ok 0 true n).
  - cut (forall b k j, (j < List.length (automation fuel ok k b))%nat ->
           nth j (automation fuel ok k b) 0 = if xorb b (negb (Nat.even j)) then 100 else -100).
    { intros H j Hj. rewrite (H true 0%nat j Hj). by destruct (Nat.even j). }
    induction fuel as [|f IH]; intros b k j Hj; simpl in *; [lia |].
    destruct j as [|j]; [by destruct b |].
    destruct (ok k); simpl in Hj; [| lia].
    rewrite (IH (negb b) (S k) j) by lia. rewrite Nat.even_succ, <- Nat.negb_even.
    by destruct b, (Nat.even j).
Qed.

End PumpExtra.
